(** * Lab02 data-collection scripts: a shallow embedding and its properties

    The development follows three scripts of the repository:
    - [Scraper]: [simple_summarize] of [enhanced_scraper.py] and
      [enhanced_scraper_v2.py] (the two copies are textually identical);
    - [Weather]: the wind index and [get_wind_direction_name] of
      [vietnam_weather_data.py];
    - [Tracker]: [multi_crypto_tracker.py], from the threshold table to [main].

    Numbers.  Prices, wind speeds and angles are rationals ([Q]): a JSON
    number parsed by Python is an [int] or a finite [float], each of which
    denotes one rational, and the order comparisons the scripts perform on
    them are exact.  In [Weather] the arithmetic is carried out exactly
    over [Q], without the rounding error of binary64 products and
    quotients; [WeatherBinary64] repeats the two computations on binary64
    numbers, and the worked examples are checked in both. *)

From Stdlib Require Import Ascii QArith Qabs Qround Lqa OrderedTypeEx.
From Stdlib Require Import PrimFloat FloatOps SpecFloat.
From stdpp Require Import gmap strings list sorting pretty.

Local Open Scope Z_scope.

(** ** Python strings as sequences of code points *)

Module PyStr.

(** A Python [str] is a sequence of Unicode code points; [len] counts
    code points, slicing cuts between them. *)
Definition char := N.
Definition str := list char.

Definition of_ascii (a : ascii) : char := N_of_ascii a.

(** Reading of a string literal of the source (ASCII only). *)
Definition lit (s : string) : str := of_ascii <$> String.list_ascii_of_string s.

(** [str.isspace] on one code point: the set [str.strip()] removes. *)
Definition isspace (c : char) : bool :=
  ((9 <=? c) && (c <=? 13) || (28 <=? c) && (c <=? 32)
   || (c =? 133) || (c =? 160) || (c =? 5760)
   || (8192 <=? c) && (c <=? 8202)
   || (c =? 8232) || (c =? 8233) || (c =? 8239) || (c =? 8287)
   || (c =? 12288))%N.

Fixpoint lstrip (s : str) : str :=
  match s with
  | c :: s' => if isspace c then lstrip s' else s
  | [] => []
  end.

(** [s.strip()] *)
Definition strip (s : str) : str := reverse (lstrip (reverse (lstrip s))).

(** [sep.join(xs)] *)
Fixpoint join (sep : str) (xs : list str) : str :=
  match xs with
  | [] => []
  | [x] => x
  | x :: rest => x ++ sep ++ join sep rest
  end.

End PyStr.

(** ** enhanced_scraper.py / enhanced_scraper_v2.py *)

Module Scraper.
Import PyStr.

(** The character class [[.!?]] of the splitting pattern. *)
Definition is_terminator (c : char) : bool :=
  ((c =? 46) || (c =? 33) || (c =? 63))%N.

(** [re.split(r'[.!?]+', text)]: the pieces between maximal runs of
    terminators, empty pieces at either end included.  [cur] is the piece
    being read (reversed), [in_run] tells that the previous character
    belonged to a separator run. *)
Fixpoint re_split_aux (cur : str) (in_run : bool) (text : str) : list str :=
  match text with
  | [] => [reverse cur]
  | c :: rest =>
      if is_terminator c then
        if in_run then re_split_aux [] true rest
        else reverse cur :: re_split_aux [] true rest
      else re_split_aux (c :: cur) false rest
  end.

Definition re_split (text : str) : list str := re_split_aux [] false text.

Definition nonempty (s : str) : bool :=
  match s with [] => false | _ => true end.

(** [[s.strip() for s in sentences if s.strip()]] *)
Definition sentences_of (text : str) : list str :=
  strip <$> filter (fun s => nonempty (strip s) = true) (re_split text).

Definition ellipsis : str := lit "...".

(** [simple_summarize(text, max_sentences=3)] *)
Definition simple_summarize (text : str) (max_sentences : nat) : str :=
  match text with
  | [] => []
  | _ =>
      let sentences := sentences_of text in
      let summary_sentences := take max_sentences sentences in
      let summary := join (lit ". ") summary_sentences in
      if (300 <? length summary)%nat
      then take 297 summary ++ ellipsis
      else summary
  end.

End Scraper.

(** ** vietnam_weather_data.py *)

Module Weather.

Local Open Scope Q_scope.

(** Round half to even to an integer: Python's [round(x)] and the [rint]
    that [Series.round] applies. *)
Definition round_half_even (x : Q) : Z :=
  let f := Qfloor x in
  match Qcompare (Qminus x (inject_Z f)) (1 # 2) with
  | Lt => f
  | Gt => (f + 1)%Z
  | Eq => if Z.even f then f else (f + 1)%Z
  end.

(** [Series.round(1)]: scale by ten, round to an integer, scale back. *)
Definition round1 (x : Q) : Q :=
  Qdiv (inject_Z (round_half_even (Qmult x 10))) 10.

(** [Series.clip(lower, upper)] on one entry. *)
Definition clip (x lower upper : Q) : Q :=
  if Qle_bool lower x then (if Qle_bool x upper then x else upper) else lower.

(** The column expression of lines 42-44 and 70-72 on one row. *)
Definition wind_index (speed gusts : Q) : Q :=
  clip (round1 (Qmult (Qdiv (Qplus (Qmult speed (7 # 10)) (Qmult gusts (3 # 10))) 50) 100)) 0 100.

Definition directions : list string :=
  ["N"; "NNE"; "NE"; "ENE"; "E"; "ESE"; "SE"; "SSE";
   "S"; "SSW"; "SW"; "WSW"; "W"; "WNW"; "NW"; "NNW"]%string.

(** [get_wind_direction_name(degrees)]; [None] as argument is a missing
    value ([pd.isna]), [None] as result is an [IndexError]. *)
Definition get_wind_direction_name (degrees : option Q) : option string :=
  match degrees with
  | None => Some "Unknown"%string
  | Some d =>
      let idx := (round_half_even (Qdiv d (45 # 2)) mod 16)%Z in
      directions !! Z.to_nat idx
  end.

End Weather.

(** The same two computations on binary64 numbers, as numpy and Python
    evaluate them; used to check the worked examples without idealising
    the arithmetic. *)
Module WeatherBinary64.

Definition two52 : float := 0x1p52%float.

(** [rint]: round to an integer, half to even, by the usual detour through
    [2^52]; a number of magnitude [2^52] or more is an integer already. *)
Definition rint (y : float) : float :=
  if PrimFloat.ltb (PrimFloat.abs y) two52 then
    let r := PrimFloat.sub (PrimFloat.add (PrimFloat.abs y) two52) two52 in
    if PrimFloat.ltb y 0%float then PrimFloat.opp r else r
  else y.

Definition round1 (x : float) : float :=
  PrimFloat.div (rint (PrimFloat.mul x 10%float)) 10%float.

Definition clip (x lower upper : float) : float :=
  if PrimFloat.ltb x lower then lower
  else if PrimFloat.ltb upper x then upper else x.

(** The literals [0.7] and [0.3] are the binary64 numbers nearest to them. *)
Definition wind_index (speed gusts : float) : float :=
  clip (round1 (PrimFloat.mul
                  (PrimFloat.div
                     (PrimFloat.add
                        (PrimFloat.mul speed 0x1.6666666666666p-1%float)
                        (PrimFloat.mul gusts 0x1.3333333333333p-2%float))
                     50%float)
                  100%float))
    0%float 100%float.

(** The integer a finite binary64 number of integral value denotes. *)
Definition int_of_float (f : float) : option Z :=
  match Prim2SF f with
  | S754_zero _ => Some 0
  | S754_finite s m e =>
      let n := if 0 <=? e then Z.shiftl (Z.pos m) e
               else Z.shiftr (Z.pos m) (- e) in
      Some (if s then - n else n)
  | S754_infinity _ | S754_nan => None
  end.

(** [get_wind_direction_name(degrees)]; as a result, [None] is an
    exception ([round] raises on an infinity). *)
Definition get_wind_direction_name (degrees : float) : option string :=
  if PrimFloat.is_nan degrees then Some "Unknown"%string
  else
    idx ← int_of_float (rint (PrimFloat.div degrees 22.5%float));
    Weather.directions !! Z.to_nat (idx mod 16).

End WeatherBinary64.

(** ** multi_crypto_tracker.py *)

Module Tracker.

(** *** Parsed JSON and the Python operations applied to it *)

(** What [response.json()] returns.  An object is a [dict] keyed by
    strings; a number is kept as the rational it denotes. *)
Local Unset Elimination Schemes.
Inductive json :=
| JNull
| JBool (b : bool)
| JNum (q : Q)
| JStr (s : string)
| JArr (xs : list json)
| JObj (fields : gmap string json).
Local Set Elimination Schemes.

Inductive exn :=
| KeyError | TypeError | ValueError | OverflowError
| RequestException | HTTPError | JSONDecodeError.

(** A computation inside a [try] block: a value, or a raised exception. *)
Inductive result (A : Type) :=
| Ok (a : A)
| Raise (e : exn).
Arguments Ok {A} a.
Arguments Raise {A} e.

#[export] Instance result_ret : MRet result := fun A a => Ok a.
#[export] Instance result_bind : MBind result := fun A B f m =>
  match m with
  | Ok a => f a
  | Raise e => Raise e
  end.

(** [v == key] for a string [key]. *)
Definition is_str (key : string) (v : json) : bool :=
  match v with
  | JStr s => bool_decide (s = key)
  | _ => false
  end.

(** [key in container] *)
Definition contains (key : string) (container : json) : result bool :=
  match container with
  | JObj fields => Ok (bool_decide (is_Some (fields !! key)))
  | JArr xs => Ok (existsb (is_str key) xs)
  | JStr s => Ok (if String.index 0 key s is Some _ then true else false)
  | JNull | JBool _ | JNum _ => Raise TypeError
  end.

(** [container[key]] for a string [key]. *)
Definition getitem (container : json) (key : string) : result json :=
  match container with
  | JObj fields =>
      match fields !! key with
      | Some v => Ok v
      | None => Raise KeyError
      end
  | _ => Raise TypeError
  end.

(** The least magnitude an [int] cannot be converted to a binary64 number
    at: halfway between the greatest finite one and [2^1024]. *)
Definition float_overflow : Q := inject_Z (2 ^ 1024 - 2 ^ 970).

(** The value interpolated by [{price:,.2f}]: the format accepts an
    [int], a [float] or a [bool] and raises on everything else.  A number
    of magnitude [float_overflow] or more can only be an [int], which the
    format fails to convert. *)
Definition format_2f (price : json) : result Q :=
  match price with
  | JNum q =>
      if Qle_bool float_overflow (Qabs q) then Raise OverflowError else Ok q
  | JBool b => Ok (if b then 1%Q else 0%Q)
  | JStr _ => Raise ValueError
  | JNull | JArr _ | JObj _ => Raise TypeError
  end.

(** [bool(v)] *)
Definition truthy (v : json) : bool :=
  match v with
  | JNull => false
  | JBool b => b
  | JNum q => negb (Qeq_bool q 0)
  | JStr s => negb (bool_decide (s = EmptyString))
  | JArr xs => match xs with [] => false | _ => true end
  | JObj fields => negb (bool_decide (fields = ∅))
  end.

(** [s.upper()] on ASCII letters (coin identifiers are ASCII slugs). *)
Definition upper_ascii (a : ascii) : ascii :=
  let n := nat_of_ascii a in
  if ((97 <=? n) && (n <=? 122))%nat then ascii_of_nat (n - 32) else a.

Fixpoint upper (s : string) : string :=
  match s with
  | EmptyString => EmptyString
  | String a s' => String (upper_ascii a) (upper s')
  end.

Definition Qgt_bool (a b : Q) : bool := negb (Qle_bool a b).
Definition Qlt_bool (a b : Q) : bool := negb (Qle_bool b a).

(** *** Thresholds (lines 8-37) *)

Record thresholds := { high : Q; low : Q }.

(** The literals [0.23] and [0.20] are written with the exact value of
    the binary64 number Python reads them as. *)
Definition PRICE_THRESHOLDS : gmap string thresholds :=
  {[ "BTC"%string := {| high := 113000; low := 110000 |};
     "ETH"%string := {| high := 4100; low := 4000 |};
     "DOGE"%string :=
       {| high := 8286623314361713 # 36028797018963968;
          low := 3602879701896397 # 18014398509481984 |} ]}.

Inductive alert_type := NORMAL | HIGH_ALERT | LOW_ALERT.

(** A warning message, by its template and the values interpolated. *)
Inductive warning :=
| HighAlertMsg (symbol : string) (price threshold_high : Q)
| LowAlertMsg (symbol : string) (price threshold_low : Q)
| NormalMsg (symbol : string) (price threshold_low threshold_high : Q).

Definition warning_type (w : warning) : alert_type :=
  match w with
  | HighAlertMsg _ _ _ => HIGH_ALERT
  | LowAlertMsg _ _ _ => LOW_ALERT
  | NormalMsg _ _ _ _ => NORMAL
  end.

(** [check_price_thresholds(symbol, price)] *)
Definition check_price_thresholds (symbol : string) (price : Q) : list warning :=
  match PRICE_THRESHOLDS !! symbol with
  | Some thresholds =>
      if Qgt_bool price (high thresholds) then
        [HighAlertMsg symbol price (high thresholds)]
      else if Qlt_bool price (low thresholds) then
        [LowAlertMsg symbol price (low thresholds)]
      else
        [NormalMsg symbol price (low thresholds) (high thresholds)]
  | None => []
  end.

(** *** One sampling round (lines 47-108) *)

Record price_record := { time : string; symbol : string; usd_price : Q }.

Definition default_symbols : list string :=
  ["bitcoin"; "ethereum"; "dogecoin"]%string.

Definition crypto_map : gmap string string :=
  {[ "bitcoin"%string := "BTC"%string;
     "ethereum"%string := "ETH"%string;
     "dogecoin"%string := "DOGE"%string ]}.

(** The [for crypto_id in crypto_symbols] loop of lines 81-96, with the
    two lists it extends.  A raised exception abandons both. *)
Fixpoint collect (current_time : string) (data : json)
    (crypto_symbols : list string)
    (crypto_data : list price_record) (all_warnings : list warning)
    : result (list price_record * list warning) :=
  match crypto_symbols with
  | [] => Ok (crypto_data, all_warnings)
  | crypto_id :: rest =>
      present ← contains crypto_id data;
      if (present : bool) then
        entry ← getitem data crypto_id;
        price ← getitem entry "usd";
        let symbol := default (upper crypto_id) (crypto_map !! crypto_id) in
        p ← format_2f price;
        collect current_time data rest
          (crypto_data ++
             [{| time := current_time; symbol := symbol; usd_price := p |}])
          (all_warnings ++ check_price_thresholds symbol p)
      else collect current_time data rest crypto_data all_warnings
  end.

(** What the three library calls opening the [try] block deliver:
    [requests.get] raises, [raise_for_status] raises, [response.json()]
    raises, or the parsed payload. *)
Inductive http_outcome :=
| NetworkFailure
| ErrorStatus
| MalformedBody
| Payload (data : json).

Definition fetch (r : http_outcome) : result json :=
  match r with
  | NetworkFailure => Raise RequestException
  | ErrorStatus => Raise HTTPError
  | MalformedBody => Raise JSONDecodeError
  | Payload data => Ok data
  end.

(** One round as the environment presents it: the clock reading of
    line 71 and the outcome of the request. *)
Definition round_input : Type := string * http_outcome.

(** The body of the [try] block: the records, the alerts printed and the
    raw payload. *)
Definition get_multiple_crypto_prices_try
    (crypto_symbols : list string) (r : round_input)
    : result (list price_record * list warning * json) :=
  data ← fetch r.2;
  out ← collect r.1 data crypto_symbols [] [];
  mret (out, data).

(** [get_multiple_crypto_prices(crypto_symbols)] *)
Definition get_multiple_crypto_prices
    (crypto_symbols : option (list string)) (r : round_input)
    : option (list price_record) * option json :=
  let crypto_symbols := default default_symbols crypto_symbols in
  match get_multiple_crypto_prices_try crypto_symbols r with
  | Ok (crypto_data, _, data) => (Some crypto_data, Some data)
  | Raise _ => (None, None)
  end.

(** *** The sampling loop (lines 110-137) *)

(** The environment of a run: the [k]-th request made and its clock. *)
Definition world : Type := nat → round_input.

Inductive event :=
| Request (i : nat)
| Sleep (seconds : nat).

Record loop_state := {
  all_crypto_data : list price_record;
  log : list event
}.

(** [if crypto_data:] holds for a list with at least one element. *)
Definition extend_if_truthy (acc : list price_record)
    (crypto_data : option (list price_record)) : list price_record :=
  match crypto_data with
  | Some ((_ :: _) as cd) => acc ++ cd
  | _ => acc
  end.

(** The body of [for i in range(samples)]. *)
Definition sample_step (samples interval_seconds : nat)
    (crypto_symbols : list string) (w : world)
    (st : loop_state) (i : nat) : loop_state :=
  let crypto_data := (get_multiple_crypto_prices (Some crypto_symbols) (w i)).1 in
  {| all_crypto_data := extend_if_truthy (all_crypto_data st) crypto_data;
     log := log st ++ Request i ::
              (if (i <? samples - 1)%nat then [Sleep interval_seconds] else []) |}.

Definition sample_loop (samples interval_seconds : nat)
    (crypto_symbols : list string) (w : world) : loop_state :=
  foldl (sample_step samples interval_seconds crypto_symbols w)
    {| all_crypto_data := []; log := [] |} (seq 0 samples).

(** [get_crypto_samples_over_time(samples, interval_seconds,
    crypto_symbols)]; the data frame is the list of its rows. *)
Definition get_crypto_samples_over_time (samples interval_seconds : nat)
    (crypto_symbols : option (list string)) (w : world)
    : option (list price_record) :=
  let crypto_symbols := default default_symbols crypto_symbols in
  match all_crypto_data (sample_loop samples interval_seconds crypto_symbols w) with
  | [] => None
  | df => Some df
  end.

(** *** Deduplication and sorting (line 252) *)

Definition key : Type := string * string.
Definition key_of (r : price_record) : key := (time r, symbol r).

(** Python compares strings code point by code point. *)
Definition key_compare (a b : key) : comparison :=
  match String.compare a.1 b.1 with
  | Eq => String.compare a.2 b.2
  | c => c
  end.

Definition key_le (a b : key) : Prop := key_compare a b ≠ Gt.
Definition record_le (r1 r2 : price_record) : Prop :=
  key_le (key_of r1) (key_of r2).

#[export] Instance comparison_eq_dec : EqDecision comparison.
Proof. solve_decision. Defined.
#[export] Instance key_le_dec : RelDecision key_le.
Proof. intros a b. unfold key_le. apply _. Defined.
#[export] Instance record_le_dec : RelDecision record_le.
Proof. intros a b. unfold record_le. apply _. Defined.

(** [df.drop_duplicates(subset=['time', 'symbol'])]: of the rows with one
    key the first is kept. *)
Fixpoint drop_duplicates_from (seen : gset key) (df : list price_record)
    : list price_record :=
  match df with
  | [] => []
  | row :: rest =>
      if decide (key_of row ∈ seen) then drop_duplicates_from seen rest
      else row :: drop_duplicates_from ({[key_of row]} ∪ seen) rest
  end.

Definition drop_duplicates (df : list price_record) : list price_record :=
  drop_duplicates_from ∅ df.

(** [df.sort_values(['time', 'symbol'])] *)
Definition sort_values (df : list price_record) : list price_record :=
  merge_sort record_le df.

Definition dedup_and_sort (df : list price_record) : list price_record :=
  sort_values (drop_duplicates df).

(** *** The alert file (lines 178-217) *)

Record alert_row := {
  alert_time : string;
  alert_symbol : string;
  alert_price : Q;
  alert_kind : alert_type;
  threshold_low : Q;
  threshold_high : Q
}.

(** The body of [for _, row in df.iterrows()] for one row. *)
Definition alert_for (row : price_record) : option alert_row :=
  match PRICE_THRESHOLDS !! symbol row with
  | Some thresholds =>
      let alert := NORMAL in
      let alert :=
        if Qgt_bool (usd_price row) (high thresholds) then HIGH_ALERT
        else if Qlt_bool (usd_price row) (low thresholds) then LOW_ALERT
        else alert in
      Some {| alert_time := time row; alert_symbol := symbol row;
              alert_price := usd_price row; alert_kind := alert;
              threshold_low := low thresholds;
              threshold_high := high thresholds |}
  | None => None
  end.

Inductive artifact :=
| PriceCsv (rows : list price_record)
| DetailedCsv (rows : list price_record) (collected_at : string)
| RawJson (collection_time : string) (cryptocurrencies : list string)
    (total_records : nat) (price_data : list price_record)
    (raw_api_response : json)
| AlertsCsv (rows : list alert_row).

(** A file written: its name and what went into it. *)
Definition file : Type := string * artifact.

(** [save_threshold_alerts(df, base_filename)]: the files written and the
    value returned. *)
Definition save_threshold_alerts (df : list price_record)
    (base_filename : string) : list file * option (list alert_row) :=
  match omap alert_for df with
  | [] => ([], None)
  | alerts => ([((base_filename +:+ "_alerts.csv")%string, AlertsCsv alerts)],
               Some alerts)
  end.

(** *** The comparison chart (lines 162-176) *)

(** [df.groupby('symbol')['usd_price'].last()] *)
Definition last_by_symbol (df : list price_record) : gmap string Q :=
  foldl (fun m row => <[symbol row := usd_price row]> m) ∅ df.

Definition price_ge (a b : string * Q) : Prop := Qle_bool b.2 a.2 = true.

#[export] Instance price_ge_dec : RelDecision price_ge.
Proof. intros a b. unfold price_ge. apply _. Defined.

(** [....sort_values(ascending=False)]; the order among equal prices only
    shows in the order of the printed lines. *)
Definition latest_prices (df : list price_record) : list (string * Q) :=
  merge_sort price_ge (map_to_list (last_by_symbol df)).

(** [latest_prices.max()] *)
Definition series_max (xs : list (string * Q)) : Q :=
  match xs with
  | [] => 0%Q
  | x :: rest => foldl (fun m p => if Qle_bool m p.2 then p.2 else m) x.2 rest
  end.

(** [int(x)] of a finite number truncates towards zero. *)
Definition Qtruncate (x : Q) : Z :=
  if Qle_bool 0 x then Qfloor x else Qceiling x.

(** [int((price / max_price) * 30)].  The operands are numpy scalars: a
    zero divisor yields [nan] (for [0 / 0]) or an infinity, on which
    [int] raises. *)
Definition bar_length (price max_price : Q) : result Z :=
  if Qeq_bool max_price 0 then
    if Qeq_bool price 0 then Raise ValueError else Raise OverflowError
  else Ok (Qtruncate (Qmult (Qdiv price max_price) 30)).

Fixpoint chart_bars (max_price : Q) (items : list (string * Q))
    : result (list (string * Z)) :=
  match items with
  | [] => Ok []
  | (symbol, price) :: rest =>
      n ← bar_length price max_price;
      bars ← chart_bars max_price rest;
      mret ((symbol, n) :: bars)
  end.

(** [create_crypto_comparison_chart(df)]: the bars printed. *)
Definition create_crypto_comparison_chart (df : list price_record)
    : result (list (string * Z)) :=
  let latest := latest_prices df in
  chart_bars (series_max latest) latest.

(** *** [main] and the script body (lines 219-330) *)

Record run := {
  files : list file;
  returned : result (option (list price_record))
}.

Definition base_filename : string := "multi_crypto_tracker".

(** The records gathered by [main] before the test of line 247: the
    first request is number 0 of the run, the three of the sampling loop
    follow. *)
Definition collected (w : world) : list price_record :=
  let crypto_symbols := default_symbols in
  let current_prices := (get_multiple_crypto_prices (Some crypto_symbols) (w 0%nat)).1 in
  let all_crypto_data := extend_if_truthy [] current_prices in
  let samples_df :=
    get_crypto_samples_over_time 3 15 (Some crypto_symbols) (fun i => w (S i)) in
  match samples_df with
  | Some df => all_crypto_data ++ df
  | None => all_crypto_data
  end.

(** [main()].  [analyze_crypto_data] and the closing per-symbol summary
    only print, and their arithmetic, on the scalars and columns of a
    numeric data frame, yields [inf] or [nan] where it divides by zero
    instead of raising; they leave no trace here. *)
Definition main (w : world) (collection_timestamp : string) : run :=
  let crypto_names := ["BTC"; "ETH"; "DOGE"]%string in
  let raw_data := (get_multiple_crypto_prices (Some default_symbols) (w 0%nat)).2 in
  match collected w with
  | [] => {| files := []; returned := Ok None |}
  | all_crypto_data =>
      let final_df := dedup_and_sort all_crypto_data in
      let main_df := final_df in
      let raw_api_response :=
        match raw_data with
        | Some data => if truthy data then data else JObj ∅
        | None => JObj ∅
        end in
      let written :=
        [ ((base_filename +:+ ".csv")%string, PriceCsv main_df);
          ((base_filename +:+ "_detailed.csv")%string,
             DetailedCsv final_df collection_timestamp);
          ((base_filename +:+ "_raw.json")%string,
             RawJson collection_timestamp crypto_names (length final_df)
               final_df raw_api_response) ] in
      match create_crypto_comparison_chart main_df with
      | Raise e => {| files := written; returned := Raise e |}
      | Ok _ =>
          let alerts := save_threshold_alerts main_df base_filename in
          {| files := written ++ alerts.1; returned := Ok (Some main_df) |}
      end
  end.

(** How the process ends: one of the two closing messages of lines
    325-330, or an exception nobody caught. *)
Inductive exit_report :=
| TrackingCompleted
| TrackingFailed
| Traceback (e : exn).

(** The [if __name__ == "__main__"] block. *)
Definition script (w : world) (collection_timestamp : string)
    : list file * exit_report :=
  let r := main w collection_timestamp in
  (files r,
   match returned r with
   | Ok (Some _) => TrackingCompleted
   | Ok None => TrackingFailed
   | Raise e => Traceback e
   end).

(** *** Readings of the above used in the statements *)

(** The classification shown by the warnings of [check_price_thresholds]. *)
Definition printed_classification (symbol : string) (price : Q)
    : list alert_type :=
  warning_type <$> check_price_thresholds symbol price.

(** The classification written to the alert file for one row. *)
Definition saved_classification (row : price_record) : option alert_type :=
  alert_kind <$> alert_for row.

(** [crypto_id in data] holds (and does not raise). *)
Definition present_in (data : json) (crypto_id : string) : bool :=
  match contains crypto_id data with
  | Ok b => b
  | Raise _ => false
  end.

(** [r] is the record of lines 86-90 for [crypto_id]: the round's
    timestamp, the symbol the identifier maps to, and the number found at
    [data[crypto_id]["usd"]]. *)
Definition record_of_symbol (current_time : string) (data : json)
    (crypto_id : string) (r : price_record) : Prop :=
  time r = current_time ∧
  symbol r = default (upper crypto_id) (crypto_map !! crypto_id) ∧
  ∃ entry price,
    getitem data crypto_id = Ok entry ∧
    getitem entry "usd" = Ok price ∧
    format_2f price = Ok (usd_price r).

(** The ways a round fails: one of the three library calls raises, or the
    payload has a shape the loop over the symbols raises on. *)
Definition round_fails (crypto_symbols : list string) (r : round_input) : Prop :=
  r.2 = NetworkFailure ∨ r.2 = ErrorStatus ∨ r.2 = MalformedBody ∨
  ∃ data e, r.2 = Payload data ∧ collect r.1 data crypto_symbols [] [] = Raise e.

(** What one round adds to the list of the sampling loop. *)
Definition round_records (crypto_symbols : list string) (r : round_input)
    : list price_record :=
  extend_if_truthy [] (get_multiple_crypto_prices (Some crypto_symbols) r).1.


End Tracker.

(** ** Inputs used in the examples *)

Module Examples.
Import PyStr Tracker.

(** A text of 317 characters whose first three sentences are short. *)
Definition short_sentences_text : str :=
  lit "One. Two. Three. " ++ replicate 300 120%N.

(** A text of 301 characters without any sentence terminator. *)
Definition one_long_sentence : str := replicate 301 97%N.

(** The payload [{"bitcoin": {"usd": price}}]. *)
Definition bitcoin_only (price : Q) : json :=
  JObj {[ "bitcoin"%string := JObj {[ "usd"%string := JNum price ]} ]}.

(** A payload whose entry for ethereum lacks the "usd" field. *)
Definition ethereum_without_usd : json :=
  JObj {[ "bitcoin"%string := JObj {[ "usd"%string := JNum 114000 ]};
          "ethereum"%string := JObj {[ "eur"%string := JNum 3500 ]} ]}.

(** The clock of the [k]-th request: seconds 0, 1, 2, ... of one minute. *)
Definition clock (k : nat) : string :=
  ("2025-11-05 10:00:0" +:+ String (ascii_of_nat (48 + k)) EmptyString)%string.

(** Every request of the run is answered [{"bitcoin": {"usd": 0}}]. *)
Definition zero_price_world : world :=
  fun k => (clock k, Payload (bitcoin_only 0)).

(** The second request of the sampling loop fails, the others answer
    [{"bitcoin": {"usd": 114000}}]. *)
Definition one_failure_world : world :=
  fun k => (clock k,
            if (k =? 1)%nat then ErrorStatus else Payload (bitcoin_only 114000)).

End Examples.

(** ** enhanced_scraper.py / enhanced_scraper_v2.py: text cleaning *)

Module ScraperText.
Import PyStr Scraper.

(** [re.sub(r'\s+', ' ', s)]: every maximal run of whitespace becomes one
    space.  [in_run] tells that the previous character was whitespace. *)
Fixpoint collapse_spaces (in_run : bool) (s : str) : str :=
  match s with
  | [] => []
  | c :: rest =>
      if isspace c then
        if in_run then collapse_spaces true rest
        else 32%N :: collapse_spaces true rest
      else c :: collapse_spaces false rest
  end.

(** [clean_text(text)] *)
Definition clean_text (text : str) : str :=
  match text with
  | [] => []
  | _ => collapse_spaces false (strip text)
  end.

(** [content[:200] + "..." if len(content) > 200 else content] *)
Definition make_preview (content : str) : str :=
  if (200 <? length content)%nat then take 200 content ++ ellipsis
  else content.

End ScraperText.

(** ** multi_crypto_tracker.py: further readings *)

Module TrackerLog.
Import Tracker.

(** The pauses of a log, in seconds, in the order taken. *)
Definition sleeps (l : list event) : list nat :=
  omap (fun ev => match ev with Sleep s => Some s | Request _ => None end) l.

(** The entry of a payload object is usable for a symbol: an object whose
    "usd" field the price format accepts. *)
Definition usable_entry (entry : json) : Prop :=
  ∃ efields price q,
    entry = JObj efields ∧ efields !! "usd"%string = Some price ∧
    format_2f price = Ok q.

End TrackerLog.

(** ** multi_crypto_tracker.py: the greatest latest price *)

Module TrackerChart.
Import Tracker.

(** [max_price] of [create_crypto_comparison_chart]. *)
Definition max_price (df : list price_record) : Q :=
  series_max (latest_prices df).


End TrackerChart.

(** ** multi_crypto_tracker.py: rows and their alerts *)

Module TrackerAlerts.
Import Tracker.

(** The symbol of a row has configured bounds. *)
Definition configured (row : price_record) : Prop :=
  is_Some (PRICE_THRESHOLDS !! symbol row).

#[export] Instance configured_dec (row : price_record) : Decision (configured row).
Proof. unfold configured. apply _. Defined.

(** An alert row written for a price row: same time, symbol and price,
    with the classification of that price and the bounds of the symbol. *)
Definition alert_of_row (row : price_record) (a : alert_row) : Prop :=
  alert_time a = time row ∧ alert_symbol a = symbol row ∧
  alert_price a = usd_price row ∧
  saved_classification row = Some (alert_kind a) ∧
  PRICE_THRESHOLDS !! symbol row
  = Some {| high := threshold_high a; low := threshold_low a |}.

End TrackerAlerts.

(** ** Further inputs used in the examples *)

Module MoreExamples.
Import Tracker Examples.

(** Every request is answered [{"bitcoin": {"usd": 114000}}]. *)
Definition steady_world : world :=
  fun k => (clock k, Payload (bitcoin_only 114000)).

(** The first request of the run fails, the others are answered
    [{"bitcoin": {"usd": 114000}}]. *)
Definition first_failure_world : world :=
  fun k => (clock k,
            if (k =? 0)%nat then NetworkFailure else Payload (bitcoin_only 114000)).

End MoreExamples.

(** ** enhanced_scraper.py / enhanced_scraper_v2.py: the scraping loops *)

Module Articles.
Import PyStr Scraper ScraperText.

(** What the scripts read off a title element: its text, and the [href]
    of the link found for it ([None] when no link element is found or the
    link has no [href]). *)
Record title_element := { get_text : str; href : option str }.

(** A listing page: the request or the status check raises, or the parsed
    page answers, for a selector, with the elements it selects. *)
Inductive listing_outcome :=
| ListingError
| Listing (select : string → list title_element).

(** An article page: the request raises, or the parsed page answers
    [select_one] with, for the element found, the stripped texts of its
    paragraphs ([p.get_text(strip=True)] for each [p] or [div]). *)
Inductive article_outcome :=
| ArticleError
| Article (select_one : string → option (list str)).

(** The web and the clock as a run meets them. *)
Record web := {
  get_listing : str → listing_outcome;
  get_article : str → article_outcome;
  urljoin : str → str → str;
  now : nat → nat → string
}.

Definition content_selectors : list string :=
  [".fck_detail"; ".Normal"; "article .content"; ".content_detail"]%string.

(** The [for selector in content_selectors] loop: the first selector that
    finds an element decides, and ends the search. *)
Fixpoint first_content (select_one : string → option (list str))
    (selectors : list string) : str :=
  match selectors with
  | [] => []
  | selector :: rest =>
      match select_one selector with
      | Some paragraphs =>
          join (lit " ") (filter (fun p => nonempty p = true) paragraphs)
      | None => first_content select_one rest
      end
  end.

(** [extract_article_content(url)] *)
Definition extract_article_content (w : web) (url : str) : str :=
  match get_article w url with
  | ArticleError => []
  | Article select_one => clean_text (first_content select_one content_selectors)
  end.

Record article_data := {
  page : nat;
  category : option str;
  title : str;
  link : str;
  content_preview : str;
  summary : str;
  content_length : nat;
  scraped_at : string
}.

(** [article_url.startswith('/')] *)
Definition startswith_slash (s : str) : bool :=
  match s with
  | 47%N :: _ => true
  | _ => false
  end.

(** The body of the loop over the title elements of a page: the record
    appended for element [i], if a link with a non-empty [href] is found.
    [base] is the first argument given to [urljoin], [category] the
    category name ([None] in enhanced_scraper.py, which has no such
    column). *)
Definition article_of (w : web) (page_num : nat) (category_name : option str)
    (base : str) (i : nat) (title_element : title_element)
    : option article_data :=
  let title := clean_text (get_text title_element) in
  match href title_element with
  | Some ((_ :: _) as article_url) =>
      let article_url :=
        if startswith_slash article_url then urljoin w base article_url
        else article_url in
      let content := extract_article_content w article_url in
      let summary := simple_summarize content 3 in
      Some {| page := page_num; category := category_name; title := title;
              link := article_url; content_preview := make_preview content;
              summary := summary; content_length := length content;
              scraped_at := now w page_num i |}
  | _ => None
  end.

(** What the loop over the pages does besides collecting records: its
    requests for listing pages and its pauses.  The requests for articles,
    made by [extract_article_content], are not logged. *)
Inductive event :=
| GetListing (url : str)
| Sleep (seconds : nat).

Record state := {
  all_articles_data : list article_data;
  log : list event
}.

(** One turn of the loop over the pages, shared by the two scripts: the
    listing is requested; a failure or a page without title elements
    skips the rest of the turn, the pause included. *)
Definition scrape_page (w : web) (max_pages articles_per_page : nat)
    (choose : (string → list title_element) → list title_element)
    (page_num : nat) (url base : str) (category_name : option str)
    (st : state) : state :=
  let requested :=
    {| all_articles_data := all_articles_data st;
       log := log st ++ [GetListing url] |} in
  match get_listing w url with
  | ListingError => requested
  | Listing select =>
      match choose select with
      | [] => requested
      | title_elements =>
          let page_articles :=
            omap id (imap (article_of w page_num category_name base)
                       (take articles_per_page title_elements)) in
          {| all_articles_data := all_articles_data st ++ page_articles;
             log := log requested
                    ++ replicate (length page_articles) (Sleep 1)
                    ++ (if (page_num <? max_pages)%nat then [Sleep 2] else []) |}
      end
  end.

(** What a scraping function leaves: the state of its loop, and the CSV
    file written, which is also the frame returned ([None]: nothing is
    written, [None] is returned). *)
Definition outcome : Type := state * option (string * list article_data).

Definition save_csv (filename : string) (st : state) : outcome :=
  match all_articles_data st with
  | [] => (st, None)
  | data => (st, Some (filename, data))
  end.

(** *** enhanced_scraper.py *)

Definition base_url : str := lit "https://vnexpress.net".

Definition page_url (page_num : nat) : str :=
  if (page_num =? 1)%nat then base_url
  else base_url ++ lit "?page=" ++ lit (pretty page_num).

(** The title elements of a page: [h3.title-news], else [h3.title_news],
    else [h2.title-news]. *)
Definition title_elements_v1 (select : string → list title_element)
    : list title_element :=
  match select "h3.title-news"%string with
  | [] =>
      match select "h3.title_news"%string with
      | [] => select "h2.title-news"%string
      | elements => elements
      end
  | elements => elements
  end.

(** [scrape_vnexpress_enhanced(max_pages, articles_per_page)] *)
Definition scrape_vnexpress_enhanced (w : web)
    (max_pages articles_per_page : nat) : outcome :=
  save_csv
    ("vnexpress_articles_multipage_" +:+ pretty max_pages +:+ "pages.csv")%string
    (foldl (fun st page_num =>
              scrape_page w max_pages articles_per_page title_elements_v1
                page_num (page_url page_num) (page_url page_num) None st)
       {| all_articles_data := []; log := [] |} (seq 1 max_pages)).

(** *** enhanced_scraper_v2.py *)

Definition categories : list (str * str) :=
  [ ([84; 114; 97; 110; 103; 32; 99; 104; 7911]%N, lit "https://vnexpress.net/");
    ([84; 104; 7901; 105; 32; 115; 7921]%N, lit "https://vnexpress.net/thoi-su");
    ([75; 105; 110; 104; 32; 100; 111; 97; 110; 104]%N,
       lit "https://vnexpress.net/kinh-doanh");
    ([84; 104; 7875; 32; 116; 104; 97; 111]%N, lit "https://vnexpress.net/the-thao");
    ([71; 105; 7843; 105; 32; 116; 114; 237]%N, lit "https://vnexpress.net/giai-tri");
    ([83; 7913; 99; 32; 107; 104; 7887; 101]%N, lit "https://vnexpress.net/suc-khoe");
    ([272; 7901; 105; 32; 115; 7889; 110; 103]%N, lit "https://vnexpress.net/gia-dinh");
    ([68; 117; 32; 108; 7883; 99; 104]%N, lit "https://vnexpress.net/du-lich");
    ([75; 104; 111; 97; 32; 104; 7885; 99]%N, lit "https://vnexpress.net/khoa-hoc");
    ([83; 7889; 32; 104; 243; 97]%N, lit "https://vnexpress.net/so-hoa") ].

Definition title_selectors : list string :=
  ["h3.title-news"; "h2.title-news"; "h3.title_news"; "h2.title_news";
   ".item-news h3"; ".item-news h2"; ".title-news"; "article h3";
   "article h2"]%string.

(** The [for selector in selectors] loop: the elements of the first
    selector that selects any. *)
Fixpoint first_selected (select : string → list title_element)
    (selectors : list string) : list title_element :=
  match selectors with
  | [] => []
  | selector :: rest =>
      match select selector with
      | [] => first_selected select rest
      | elements => elements
      end
  end.

Definition title_elements_v2 (select : string → list title_element)
    : list title_element :=
  first_selected select title_selectors.

(** [range(1, min(max_pages + 1, len(categories) + 1))] *)
Definition category_pages (max_pages : nat) : list nat :=
  seq 1 (min (max_pages + 1) (length categories + 1) - 1).

(** [scrape_vnexpress_categories(max_pages, articles_per_page)] *)
Definition scrape_vnexpress_categories (w : web)
    (max_pages articles_per_page : nat) : outcome :=
  save_csv
    ("vnexpress_articles_categories_" +:+ pretty max_pages +:+ "pages.csv")%string
    (foldl (fun st page_num =>
              match categories !! (page_num - 1)%nat with
              | Some (category_name, url) =>
                  scrape_page w max_pages articles_per_page title_elements_v2
                    page_num url (lit "https://vnexpress.net")
                    (Some category_name) st
              | None => st
              end)
       {| all_articles_data := []; log := [] |} (category_pages max_pages)).

(** The listing pages requested, in the order requested. *)
Definition listings (l : list event) : list str :=
  omap (fun ev => match ev with GetListing url => Some url | Sleep _ => None end) l.

(** The seconds slept. *)
Definition slept (l : list event) : nat :=
  sum_list (omap (fun ev => match ev with Sleep s => Some s | GetListing _ => None end) l).

(** What the loop body makes of the article behind a record's link. *)
Definition record_of_article (w : web) (a : article_data) : Prop :=
  let content := extract_article_content w (link a) in
  summary a = simple_summarize content 3 ∧
  content_preview a = make_preview content ∧
  content_length a = length content.

End Articles.

Module ArticleExamples.
Import PyStr Articles.

(** An article page with an empty [.Normal] element and a filled
    [.content_detail] element; no other content selector finds anything. *)
Definition empty_normal_page (selector : string) : option (list str) :=
  if String.eqb selector ".Normal" then Some [[]; []]
  else if String.eqb selector ".content_detail"
       then Some [lit "Rain is expected."; lit "Roads are closed."]
       else None.

(** A web whose every article is [empty_normal_page] and whose listings
    all fail; [urljoin] as it is on an address of vnexpress.net and a
    path. *)
Definition empty_normal_web : web :=
  {| get_listing := fun _ => ListingError;
     get_article := fun _ => Article empty_normal_page;
     urljoin := fun _ url => lit "https://vnexpress.net" ++ url;
     now := fun _ _ => "2025-01-01 00:00:00"%string |}.

(** A web whose front page lists one linked title and one title without
    a link, and whose article requests all fail. *)
Definition unreachable_articles_web : web :=
  {| get_listing := fun _ =>
       Listing (fun selector =>
                  if String.eqb selector "h3.title-news"
                  then [ {| get_text := lit " Storm  warning ";
                            href := Some (lit "/storm.html") |};
                         {| get_text := lit "No link"; href := None |} ]
                  else []);
     get_article := fun _ => ArticleError;
     urljoin := fun _ url => lit "https://vnexpress.net" ++ url;
     now := fun _ _ => "2025-01-01 00:00:00"%string |}.

End ArticleExamples.

(** * Properties *)

(** ** The summary of an article *)

Section scraper.
Import PyStr Scraper Examples.

Lemma length_ellipsis : length ellipsis = 3%nat.
Proof. reflexivity. Qed.

Lemma lstrip_suffix (s : str) : lstrip s `suffix_of` s.
Proof.
  induction s as [|c s IH]; simpl; [done|].
  destruct (isspace c); [|done].
  by apply suffix_cons_r.
Qed.

Lemma elem_of_lstrip (c : char) (s : str) : c ∈ lstrip s → c ∈ s.
Proof.
  intros H. destruct (lstrip_suffix s) as [k ->].
  apply elem_of_app. by right.
Qed.

(** [strip] only removes characters. *)
Lemma elem_of_strip (c : char) (s : str) : c ∈ strip s → c ∈ s.
Proof.
  unfold strip. intros H.
  by apply elem_of_lstrip, elem_of_reverse, elem_of_lstrip, elem_of_reverse.
Qed.

(** The pieces [re.split] returns hold no terminator. *)
Lemma re_split_aux_no_terminator cur in_run text :
  Forall (fun c => is_terminator c = false) cur →
  Forall (Forall (fun c => is_terminator c = false)) (re_split_aux cur in_run text).
Proof.
  revert cur in_run.
  induction text as [|c text IH]; intros cur in_run Hcur; simpl.
  - constructor; [|constructor]. by apply Forall_reverse.
  - destruct (is_terminator c) eqn:Hc.
    + destruct in_run.
      * by apply IH.
      * constructor; [by apply Forall_reverse|by apply IH].
    + apply IH. by constructor.
Qed.

(** A sentence is not empty and holds no terminator. *)
Lemma sentences_of_spec (text : str) :
  Forall (fun s => s ≠ [] ∧ Forall (fun c => is_terminator c = false) s)
    (sentences_of text).
Proof.
  unfold sentences_of. apply Forall_fmap, Forall_forall.
  intros piece [Hne Hin]%list_elem_of_filter. simpl. split.
  - intros E. rewrite E in Hne. discriminate.
  - assert (Hall : Forall (fun c => is_terminator c = false) piece).
    { pose proof (re_split_aux_no_terminator [] false text (Forall_nil_2 _)) as H.
      rewrite Forall_forall in H. by apply H. }
    rewrite Forall_forall in Hall |- *.
    intros c Hc. by apply Hall, elem_of_strip.
Qed.

Lemma simple_summarize_unfold (text : str) (n : nat) :
  text ≠ [] →
  simple_summarize text n =
    let summary := join (lit ". ") (take n (sentences_of text)) in
    if (300 <? length summary)%nat then take 297 summary ++ ellipsis else summary.
Proof. by destruct text. Qed.

Lemma sentences_of_empty : sentences_of [] = [].
Proof. reflexivity. Qed.

Lemma truncated_length (summary : str) :
  (300 < length summary)%nat → length (take 297 summary ++ ellipsis) = 300%nat.
Proof. intros H. rewrite length_app, length_take, length_ellipsis. lia. Qed.

(** C4 as the spec states it fails: a text of 317 characters whose summary
    has 15 characters and ends in no ellipsis. *)
Lemma long_text_short_summary :
  (300 < length short_sentences_text)%nat ∧
  simple_summarize short_sentences_text 3 = lit "One. Two. Three" ∧
  length (simple_summarize short_sentences_text 3) ≠ 300%nat.
Proof. vm_compute. split; [lia|]. split; [reflexivity|lia]. Qed.

(** C4, amended: when the first three sentences, joined by ". ", are
    longer than 300 characters, the summary is exactly 300 characters long
    and its last three characters are the ellipsis marker "...". *)
Theorem long_summary_is_truncated (text : str) :
  (300 < length (join (lit ". ") (take 3 (sentences_of text))))%nat →
  length (simple_summarize text 3) = 300%nat ∧
  drop 297 (simple_summarize text 3) = ellipsis.
Proof.
  intros Hlong.
  destruct (decide (text = [])) as [->|Hne].
  { rewrite sentences_of_empty in Hlong. simpl in Hlong. lia. }
  rewrite simple_summarize_unfold by done. cbv zeta.
  destruct (Nat.ltb_spec 300 (length (join (lit ". ") (take 3 (sentences_of text)))));
    [|lia].
  split; [by apply truncated_length|].
  rewrite drop_app_length'; [done|].
  rewrite length_take. lia.
Qed.

Lemma long_summary_is_truncated_witness :
  length (simple_summarize one_long_sentence 3) = 300%nat ∧
  drop 297 (simple_summarize one_long_sentence 3) = ellipsis.
Proof. apply long_summary_is_truncated. vm_compute. lia. Defined.

(** C10: for every text, the empty one included, the summary has at most
    300 characters, and it is made of at most three sentences, the first
    ones of the text: it is their join by ". ", or the first 297
    characters of that join followed by the ellipsis marker. *)
Theorem summary_bounded_by_three_sentences (text : str) :
  (length (simple_summarize text 3) ≤ 300)%nat ∧
  ∃ used : list str,
    used `prefix_of` sentences_of text ∧ (length used ≤ 3)%nat ∧
    (simple_summarize text 3 = join (lit ". ") used ∨
     simple_summarize text 3 = take 297 (join (lit ". ") used) ++ ellipsis).
Proof.
  destruct (decide (text = [])) as [->|Hne].
  { split; [simpl; lia|]. exists []. split; [apply prefix_nil|].
    split; [simpl; lia|]. by left. }
  rewrite simple_summarize_unfold by done. cbv zeta.
  set (used := take 3 (sentences_of text)).
  assert (Hused : (length used ≤ 3)%nat) by (unfold used; rewrite length_take; lia).
  destruct (Nat.ltb_spec 300 (length (join (lit ". ") used))) as [Hlong|Hshort].
  - split; [by rewrite truncated_length|].
    exists used. split; [apply prefix_take|]. split; [done|]. by right.
  - split; [done|].
    exists used. split; [apply prefix_take|]. split; [done|]. by left.
Qed.

End scraper.

(** ** Wind index and compass direction *)

Section weather.
Import Weather.
Local Open Scope Q_scope.















End weather.

(** ** The price tracker: thresholds *)

Section thresholds.
Import Tracker.
Local Open Scope Q_scope.

Lemma Qgt_bool_iff (a b : Q) : Qgt_bool a b = true ↔ b < a.
Proof.
  unfold Qgt_bool. rewrite negb_true_iff. split.
  - intros H. apply Qnot_le_lt. intros Hle. apply Qle_bool_iff in Hle. congruence.
  - intros H. destruct (Qle_bool a b) eqn:E; [|done].
    apply Qle_bool_iff in E. lra.
Qed.

Lemma Qlt_bool_iff (a b : Q) : Qlt_bool a b = true ↔ a < b.
Proof. apply Qgt_bool_iff. Qed.

(** The table has three entries. *)
Lemma PRICE_THRESHOLDS_lookup (symbol : string) (th : thresholds) :
  PRICE_THRESHOLDS !! symbol = Some th →
  (symbol = "BTC"%string ∧ th = {| high := 113000; low := 110000 |}) ∨
  (symbol = "ETH"%string ∧ th = {| high := 4100; low := 4000 |}) ∨
  (symbol = "DOGE"%string ∧
   th = {| high := 8286623314361713 # 36028797018963968;
           low := 3602879701896397 # 18014398509481984 |}).
Proof.
  unfold PRICE_THRESHOLDS. intros H.
  apply lookup_insert_Some in H as [[<- <-]|[_ H]]; [by left|].
  apply lookup_insert_Some in H as [[<- <-]|[_ H]]; [by right; left|].
  apply lookup_singleton_Some in H as [<- <-]. by right; right.
Qed.

(** In every configured band the low bound lies below the high bound. *)
Lemma PRICE_THRESHOLDS_ordered (symbol : string) (th : thresholds) :
  PRICE_THRESHOLDS !! symbol = Some th → low th < high th.
Proof.
  intros [[_ ->]|[[_ ->]|[_ ->]]]%PRICE_THRESHOLDS_lookup; reflexivity.
Qed.

(** C1: the classification is a function of the symbol, the price and the
    configured bounds.  For a symbol of the table: HIGH_ALERT when the
    price is strictly above the high bound, LOW_ALERT when it is strictly
    below the low bound, NORMAL otherwise; for a symbol that is not in the
    table, no classification at all.  This holds of the warnings printed
    and of the rows of the alert file, whatever the time of the row. *)
Theorem threshold_classification (symbol : string) (price : Q) :
  (∀ th, PRICE_THRESHOLDS !! symbol = Some th →
     (high th < price →
        printed_classification symbol price = [HIGH_ALERT] ∧
        ∀ t, saved_classification
               {| time := t; symbol := symbol; usd_price := price |}
             = Some HIGH_ALERT) ∧
     (price < low th →
        printed_classification symbol price = [LOW_ALERT] ∧
        ∀ t, saved_classification
               {| time := t; symbol := symbol; usd_price := price |}
             = Some LOW_ALERT) ∧
     (¬ high th < price → ¬ price < low th →
        printed_classification symbol price = [NORMAL] ∧
        ∀ t, saved_classification
               {| time := t; symbol := symbol; usd_price := price |}
             = Some NORMAL)) ∧
  (PRICE_THRESHOLDS !! symbol = None →
     printed_classification symbol price = [] ∧
     ∀ t, saved_classification
            {| time := t; symbol := symbol; usd_price := price |} = None).
Proof.
  unfold printed_classification, saved_classification,
    check_price_thresholds, alert_for. simpl.
  split.
  - intros th Hth. rewrite Hth.
    pose proof (PRICE_THRESHOLDS_ordered _ _ Hth) as Hord.
    destruct (Qgt_bool price (high th)) eqn:Hhi;
      [apply Qgt_bool_iff in Hhi
      |assert (¬ high th < price) by (rewrite <- Qgt_bool_iff; congruence)];
    (destruct (Qlt_bool price (low th)) eqn:Hlo;
      [apply Qlt_bool_iff in Hlo
      |assert (¬ price < low th) by (rewrite <- Qlt_bool_iff; congruence)]);
    repeat split; intros; try done; try lra.
  - intros ->. done.
Qed.

Lemma threshold_classification_witness :
  printed_classification "BTC" 109999.5 = [LOW_ALERT] ∧
  ∀ t, saved_classification
         {| time := t; symbol := "BTC"; usd_price := 109999.5 |}
       = Some LOW_ALERT.
Proof.
  destruct (threshold_classification "BTC" 109999.5) as [H _].
  destruct (H {| high := 113000; low := 110000 |} eq_refl) as (_ & Hlow & _).
  apply Hlow. reflexivity.
Defined.

End thresholds.

(** ** The price tracker: deduplication and sorting *)

Section dedup_sort.
Import Tracker.

Lemma string_compare_refl (s : string) : String.compare s s = Eq.
Proof. by apply String_as_OT.cmp_eq. Qed.

Lemma string_compare_Lt_trans (a b c : string) :
  String.compare a b = Lt → String.compare b c = Lt → String.compare a c = Lt.
Proof.
  intros H1 H2. apply String_as_OT.cmp_lt.
  eapply String_as_OT.lt_trans; by apply String_as_OT.cmp_lt.
Qed.

(** Composition of two comparison outcomes along a chain [a, b, c]. *)
Lemma string_compare_trans (a b c : string) :
  String.compare a b ≠ Gt → String.compare b c ≠ Gt →
  String.compare a c =
    match String.compare a b with Eq => String.compare b c | _ => Lt end.
Proof.
  intros Hab Hbc.
  destruct (String.compare a b) eqn:E1; [| |done].
  - apply String_as_OT.cmp_eq in E1. by subst.
  - destruct (String.compare b c) eqn:E2; [| |done].
    + apply String_as_OT.cmp_eq in E2. by subst.
    + by eapply string_compare_Lt_trans.
Qed.

#[local] Instance key_le_trans : Transitive key_le.
Proof.
  intros [a1 a2] [b1 b2] [c1 c2]. unfold key_le, key_compare. simpl.
  intros Hab Hbc.
  assert (H1 : String.compare a1 b1 ≠ Gt) by (destruct (String.compare a1 b1); done).
  assert (H2 : String.compare b1 c1 ≠ Gt) by (destruct (String.compare b1 c1); done).
  rewrite (string_compare_trans a1 b1 c1 H1 H2).
  destruct (String.compare a1 b1); [|done|done].
  destruct (String.compare b1 c1); [|done|done].
  rewrite (string_compare_trans a2 b2 c2 Hab Hbc).
  destruct (String.compare a2 b2); [|done|done].
  done.
Qed.

#[local] Instance key_le_total : Total key_le.
Proof.
  intros [a1 a2] [b1 b2]. unfold key_le, key_compare. simpl.
  rewrite (String.compare_antisym b1 a1), (String.compare_antisym b2 a2).
  destruct (String.compare a1 b1); simpl; [|by left|by right].
  destruct (String.compare a2 b2); simpl; [by left|by left|by right].
Qed.

#[local] Instance record_le_trans : Transitive record_le.
Proof. intros a b c. unfold record_le. apply key_le_trans. Qed.

#[local] Instance record_le_total : Total record_le.
Proof. intros a b. unfold record_le. apply key_le_total. Qed.

(** Two keys that compare as equal are the same pair. *)
Lemma key_compare_Eq (a b : key) : key_compare a b = Eq → a = b.
Proof.
  destruct a as [a1 a2], b as [b1 b2]. unfold key_compare. simpl.
  destruct (String.compare a1 b1) eqn:E1; [|done|done].
  intros E2. apply String_as_OT.cmp_eq in E1, E2. by subst.
Qed.

(** [drop_duplicates_from seen] keeps, in order, the first row of every key
    outside [seen]. *)
Lemma drop_duplicates_from_spec (seen : gset key) (df : list price_record) :
  NoDup (key_of <$> drop_duplicates_from seen df) ∧
  (∀ row, row ∈ drop_duplicates_from seen df → row ∈ df ∧ key_of row ∉ seen) ∧
  (∀ row, row ∈ df → key_of row ∉ seen →
     key_of row ∈ key_of <$> drop_duplicates_from seen df).
Proof.
  revert seen. induction df as [|r df IH]; intros seen; simpl.
  - split; [constructor|]. split; intros row H; by apply elem_of_nil in H.
  - destruct (decide (key_of r ∈ seen)) as [Hin|Hout].
    + destruct (IH seen) as (Hnd & Hsub & Hall).
      split; [done|]. split.
      * intros row [? ?]%Hsub. split; [by right|done].
      * intros row [->|Hrow]%elem_of_cons Hk; [done|]. by apply Hall.
    + destruct (IH ({[key_of r]} ∪ seen)) as (Hnd & Hsub & Hall).
      split; [|split].
      * rewrite fmap_cons. constructor; [|done].
        intros (row & Hk & Hrow)%list_elem_of_fmap.
        apply Hsub in Hrow as [_ Hrow]. apply Hrow.
        apply elem_of_union_l, elem_of_singleton. by symmetry.
      * intros row [->|Hrow]%elem_of_cons; [split; [by left|done]|].
        apply Hsub in Hrow as [? Hnot]. split; [by right|].
        intros ?. apply Hnot. by apply elem_of_union_r.
      * intros row [->|Hrow]%elem_of_cons Hk; [rewrite fmap_cons; by left|].
        rewrite fmap_cons.
        destruct (decide (key_of row = key_of r)) as [->|Hne]; [by left|].
        right. apply Hall; [done|].
        intros [?%elem_of_singleton|?]%elem_of_union; done.
Qed.

(** Nothing but duplicates is lost: the result holds rows of the input
    only, and every (time, symbol) pair of the input is still there. *)
Lemma dedup_and_sort_keys (df : list price_record) :
  (∀ row, row ∈ dedup_and_sort df → row ∈ df) ∧
  (∀ k, k ∈ key_of <$> dedup_and_sort df ↔ k ∈ key_of <$> df).
Proof.
  unfold dedup_and_sort, sort_values, drop_duplicates.
  destruct (drop_duplicates_from_spec ∅ df) as (_ & Hsub & Hall).
  split.
  - intros row. rewrite merge_sort_Permutation. by intros [? _]%Hsub.
  - intros k. rewrite merge_sort_Permutation. split.
    + intros (row & -> & [Hrow _]%Hsub)%list_elem_of_fmap.
      by apply list_elem_of_fmap_2.
    + intros (row & -> & Hrow)%list_elem_of_fmap. apply Hall; [done|].
      apply not_elem_of_empty.
Qed.

Lemma dedup_keys_nodup_sorted (df : list price_record) :
  NoDup (key_of <$> dedup_and_sort df) ∧
  StronglySorted record_le (dedup_and_sort df).
Proof.
  unfold dedup_and_sort, sort_values, drop_duplicates. split.
  - rewrite merge_sort_Permutation.
    apply (drop_duplicates_from_spec ∅ df).
  - apply StronglySorted_merge_sort; apply _.
Qed.

(** C2: after the deduplication and sorting step no two records share
    their (time, symbol) pair, and the records are in ascending order of
    that pair. *)
Theorem dedup_and_sort_unique_and_sorted (df : list price_record) :
  NoDup (key_of <$> dedup_and_sort df) ∧
  StronglySorted record_le (dedup_and_sort df).
Proof.
  unfold dedup_and_sort, sort_values, drop_duplicates. split.
  - destruct (drop_duplicates_from_spec ∅ df) as (Hnd & _ & _).
    by rewrite merge_sort_Permutation.
  - apply StronglySorted_merge_sort.
    + apply record_le_trans.
    + apply record_le_total.
Qed.

(** With the keys distinct, the order is even strict: every record comes
    before all later ones with a strictly smaller (time, symbol) pair. *)
Lemma dedup_and_sort_strictly_sorted (df : list price_record) :
  StronglySorted (fun r1 r2 => key_compare (key_of r1) (key_of r2) = Lt)
    (dedup_and_sort df).
Proof.
  destruct (dedup_keys_nodup_sorted df) as [Hnd Hs].
  induction Hs as [|r l Hs IH Hall]; [constructor|].
  rewrite fmap_cons in Hnd. apply NoDup_cons in Hnd as [Hr Hnd].
  constructor; [by apply IH|].
  rewrite Forall_forall in Hall |- *. intros r' Hr'.
  specialize (Hall r' Hr'). unfold record_le, key_le in Hall.
  destruct (key_compare (key_of r) (key_of r')) eqn:E; [|done|done].
  apply key_compare_Eq in E. exfalso. apply Hr. rewrite E.
  by apply list_elem_of_fmap_2.
Qed.

End dedup_sort.

(** ** The price tracker: one sampling round *)

Section sampling_round.
Import Tracker Examples.

(** C3: when the response of a round is [{"bitcoin": {"usd": 114000}}], the
    BTC bounds being low 110000 and high 113000, the round yields exactly
    one record, and that record is classified HIGH_ALERT, in the warning
    printed as in the alert file. *)
Theorem bitcoin_round_one_high_alert (now : string) :
  let record := {| time := now; symbol := "BTC"; usd_price := 114000 |} in
  PRICE_THRESHOLDS !! "BTC"%string = Some {| high := 113000; low := 110000 |} ∧
  get_multiple_crypto_prices None (now, Payload (bitcoin_only 114000))
    = (Some [record], Some (bitcoin_only 114000)) ∧
  get_multiple_crypto_prices_try default_symbols (now, Payload (bitcoin_only 114000))
    = Ok ([record], [HighAlertMsg "BTC" 114000 113000], bitcoin_only 114000) ∧
  printed_classification "BTC" 114000 = [HIGH_ALERT] ∧
  saved_classification record = Some HIGH_ALERT.
Proof. cbv zeta. repeat split; vm_compute; reflexivity. Qed.

Lemma present_in_true (data : json) (crypto_id : string) :
  present_in data crypto_id = true ↔ contains crypto_id data = Ok true.
Proof.
  unfold present_in. destruct (contains crypto_id data) as [[]|]; naive_solver.
Qed.

(** The loop appends, for each identifier the payload contains, the record
    of that identifier, and nothing else. *)
Lemma collect_spec (now : string) (data : json) (crypto_symbols : list string) :
  ∀ acc ws recs ws',
    collect now data crypto_symbols acc ws = Ok (recs, ws') →
    ∃ new,
      recs = acc ++ new ∧
      Forall2 (record_of_symbol now data)
        (filter (fun id => present_in data id = true) crypto_symbols) new.
Proof.
  induction crypto_symbols as [|id rest IH]; intros acc ws recs ws'; simpl.
  - intros [= <- <-]. exists []. by rewrite app_nil_r.
  - unfold mbind, result_bind.
    destruct (contains id data) as [present|] eqn:Hc; [|done].
    destruct present.
    + destruct (getitem data id) as [entry|] eqn:He; [|done].
      destruct (getitem entry "usd") as [price|] eqn:Hp; [|done].
      destruct (format_2f price) as [p|] eqn:Hf; [|done].
      intros (new & -> & Hnew)%IH.
      exists ({| time := now;
                 symbol := default (upper id) (crypto_map !! id);
                 usd_price := p |} :: new).
      split; [by rewrite <- app_assoc|].
      rewrite filter_cons_True by (by apply present_in_true).
      constructor; [|done].
      split; [done|]. split; [done|]. by exists entry, price.
    + intros (new & -> & Hnew)%IH. exists new. split; [done|].
      rewrite filter_cons_False; [done|].
      rewrite present_in_true. congruence.
Qed.

(** A payload that is an object, and in which every requested identifier
    that occurs has an object with a "usd" field the format accepts, makes
    the round succeed. *)
Lemma well_formed_round_succeeds (crypto_symbols : list string)
    (now : string) (fields : gmap string json) :
  (∀ id entry, id ∈ crypto_symbols → fields !! id = Some entry →
     ∃ efields price q,
       entry = JObj efields ∧ efields !! "usd"%string = Some price ∧
       format_2f price = Ok q) →
  ∃ crypto_data,
    get_multiple_crypto_prices (Some crypto_symbols) (now, Payload (JObj fields))
      = (Some crypto_data, Some (JObj fields)).
Proof.
  intros Hwf. unfold get_multiple_crypto_prices, get_multiple_crypto_prices_try.
  simpl. unfold mbind, result_bind.
  assert (H : ∀ acc ws, ∃ recs ws',
             collect now (JObj fields) crypto_symbols acc ws = Ok (recs, ws')).
  { induction crypto_symbols as [|id rest IH]; intros acc ws; simpl; [by eauto|].
    unfold mbind, result_bind.
    destruct (fields !! id) as [entry|] eqn:Hid.
    - rewrite bool_decide_eq_true_2 by done.
      destruct (Hwf id entry) as (efields & price & q & -> & Husd & Hq);
        [by left|done|].
      simpl. rewrite Husd, Hq. apply IH.
      intros id' entry' Hin. apply Hwf. by right.
    - rewrite bool_decide_eq_false_2 by (by intros [? ?]).
      apply IH. intros id' entry' Hin. apply Hwf. by right. }
  destruct (H [] []) as (recs & ws' & ->). simpl. by exists recs.
Qed.

(** C7 as the spec states it fails: three symbols are requested, the
    request succeeds, and the round yields one record, because the payload
    holds one of the three. *)
Lemma round_skips_absent_symbols :
  ∃ crypto_data,
    get_multiple_crypto_prices (Some default_symbols)
      (clock 0, Payload (bitcoin_only 114000))
    = (Some crypto_data, Some (bitcoin_only 114000)) ∧
    crypto_data = [{| time := clock 0; symbol := "BTC"; usd_price := 114000 |}] ∧
    length crypto_data ≠ length default_symbols.
Proof.
  exists [{| time := clock 0; symbol := "BTC"; usd_price := 114000 |}].
  split; [vm_compute; reflexivity|]. split; [reflexivity|]. simpl. lia.
Qed.

(** C7, amended: a round whose request succeeds yields one record per
    requested symbol that the response payload contains, in the order
    requested; each record holds the round timestamp, the symbol and its
    USD price. *)
Theorem round_yields_record_per_present_symbol
    (crypto_symbols : list string) (now : string) (outcome : http_outcome)
    (crypto_data : list price_record) :
  (get_multiple_crypto_prices (Some crypto_symbols) (now, outcome)).1
    = Some crypto_data →
  ∃ data,
    outcome = Payload data ∧
    Forall2 (record_of_symbol now data)
      (filter (fun id => present_in data id = true) crypto_symbols)
      crypto_data.
Proof.
  unfold get_multiple_crypto_prices, get_multiple_crypto_prices_try.
  simpl. unfold mbind, result_bind.
  destruct outcome as [| | |data]; simpl; try done.
  destruct (collect now data crypto_symbols [] []) as [[recs ws]|] eqn:Hc;
    simpl; [|done].
  intros [= <-]. exists data. split; [done|].
  apply collect_spec in Hc as (new & -> & Hnew). done.
Qed.

Lemma round_yields_record_per_present_symbol_witness :
  ∃ data,
    Payload (bitcoin_only 114000) = Payload data ∧
    Forall2 (record_of_symbol (clock 0) data)
      (filter (fun id => present_in data id = true) default_symbols)
      [{| time := clock 0; symbol := "BTC"; usd_price := 114000 |}].
Proof.
  apply (round_yields_record_per_present_symbol default_symbols (clock 0)).
  vm_compute. reflexivity.
Defined.

End sampling_round.

(** ** The price tracker: the sampling loop *)

Section sampling_loop.
Import Tracker Examples.
Local Open Scope nat_scope.

Lemma extend_if_truthy_app (acc : list price_record)
    (crypto_data : option (list price_record)) :
  extend_if_truthy acc crypto_data = acc ++ extend_if_truthy [] crypto_data.
Proof.
  destruct crypto_data as [[|r cd]|]; simpl; by rewrite ?app_nil_r.
Qed.

(** A failing round returns [(None, None)]. *)
Lemma round_fails_returns_None (crypto_symbols : list string) (r : round_input) :
  round_fails crypto_symbols r →
  get_multiple_crypto_prices (Some crypto_symbols) r = (None, None).
Proof.
  unfold round_fails, get_multiple_crypto_prices, get_multiple_crypto_prices_try.
  destruct r as [now outcome]. simpl. unfold mbind, result_bind.
  intros [-> | [-> | [-> | (data & e & -> & Hc)]]]; simpl; try done.
  by rewrite Hc.
Qed.

(** Conversely, [(None, None)] is returned by failing rounds only. *)
Lemma returns_None_round_fails (crypto_symbols : list string) (r : round_input) :
  (get_multiple_crypto_prices (Some crypto_symbols) r).1 = None →
  round_fails crypto_symbols r.
Proof.
  unfold round_fails, get_multiple_crypto_prices, get_multiple_crypto_prices_try.
  destruct r as [now outcome]. simpl. unfold mbind, result_bind.
  destruct outcome as [| | |data]; simpl; auto.
  destruct (collect now data crypto_symbols [] []) as [[recs ws]|e] eqn:Hc;
    simpl; [done|].
  intros _. do 3 right. by exists data, e.
Qed.

(** A payload malformed for one symbol fails the whole round: the record
    already built for bitcoin is dropped with it. *)
Lemma malformed_payload_fails_round :
  get_multiple_crypto_prices_try default_symbols
    (clock 0, Payload ethereum_without_usd) = Raise KeyError ∧
  round_fails default_symbols (clock 0, Payload ethereum_without_usd) ∧
  get_multiple_crypto_prices None (clock 0, Payload ethereum_without_usd)
    = (None, None).
Proof.
  split; [vm_compute; reflexivity|]. split; [|vm_compute; reflexivity].
  do 3 right. exists ethereum_without_usd, KeyError.
  split; [reflexivity|vm_compute; reflexivity].
Qed.

Lemma foldl_sample_step_records (samples interval : nat)
    (crypto_symbols : list string) (w : world) (l : list nat) :
  ∀ st,
    all_crypto_data (foldl (sample_step samples interval crypto_symbols w) st l)
    = all_crypto_data st ++ concat (round_records crypto_symbols ∘ w <$> l).
Proof.
  induction l as [|i l IH]; intros st; simpl.
  - by rewrite app_nil_r.
  - rewrite IH. simpl. rewrite extend_if_truthy_app.
    by rewrite <- app_assoc.
Qed.



(** The rows gathered by the loop are those of its rounds, in order. *)
Lemma sample_loop_records (samples interval : nat)
    (crypto_symbols : list string) (w : world) :
  all_crypto_data (sample_loop samples interval crypto_symbols w)
  = concat (round_records crypto_symbols ∘ w <$> seq 0 samples).
Proof. unfold sample_loop. by rewrite foldl_sample_step_records. Qed.




End sampling_loop.

(** ** The price tracker: the whole run *)

Section whole_run.
Import Tracker Examples.
Local Open Scope nat_scope.

(** The records [main] holds at line 247 are those of the four rounds of
    the run, failed rounds counting for nothing. *)
Lemma collected_rounds (w : world) :
  collected w = concat (round_records default_symbols ∘ w <$> seq 0 4).
Proof.
  unfold collected, get_crypto_samples_over_time.
  change (default default_symbols (Some default_symbols)) with default_symbols.
  rewrite (sample_loop_records 3 15 default_symbols (fun i => w (S i))).
  change (extend_if_truthy [] (get_multiple_crypto_prices (Some default_symbols) (w 0)).1)
    with (round_records default_symbols (w 0)).
  simpl. rewrite !app_nil_r.
  destruct (round_records default_symbols (w 1) ++
            round_records default_symbols (w 2) ++
            round_records default_symbols (w 3)); by rewrite ?app_nil_r.
Qed.

(** Without a single record, no file is written and the run reports
    failure. *)
Lemma no_records_no_files (w : world) (stamp : string) :
  collected w = [] → script w stamp = ([], TrackingFailed).
Proof. intros H. unfold script, main. by rewrite H. Qed.

(** With a record, the three output files are written, however many
    rounds failed. *)
Lemma records_files_written (w : world) (stamp : string) :
  collected w ≠ [] →
  fst <$> take 3 (script w stamp).1 =
    ["multi_crypto_tracker.csv"; "multi_crypto_tracker_detailed.csv";
     "multi_crypto_tracker_raw.json"]%string.
Proof.
  intros H. unfold script, main.
  destruct (collected w) as [|r l]; [done|].
  by destruct (create_crypto_comparison_chart _).
Qed.

(** The first file of a successful collection holds the deduplicated,
    sorted records. *)
Lemma price_csv_rows (w : world) (stamp : string) :
  collected w ≠ [] →
  (script w stamp).1 !! 0 =
    Some ("multi_crypto_tracker.csv"%string, PriceCsv (dedup_and_sort (collected w))).
Proof.
  intros H. unfold script, main.
  destruct (collected w) as [|r l]; [done|].
  by destruct (create_crypto_comparison_chart _).
Qed.

Lemma chart_bars_nonzero_max (max_price : Q) (items : list (string * Q)) :
  ¬ (max_price == 0)%Q → ∃ bars, chart_bars max_price items = Ok bars.
Proof.
  intros Hmax. induction items as [|[symbol price] items [bars IH]]; simpl.
  - by eexists.
  - unfold bar_length.
    destruct (Qeq_bool max_price 0) eqn:E; [by apply Qeq_bool_iff in E|].
    simpl. rewrite IH. simpl. by eexists.
Qed.

(** The run completes whenever the chart can be drawn, which is the case
    as soon as the greatest of the latest prices is not zero. *)
Lemma run_completes_unless_chart_raises (w : world) (stamp : string) :
  collected w ≠ [] →
  ¬ (series_max (latest_prices (dedup_and_sort (collected w))) == 0)%Q →
  returned (main w stamp) = Ok (Some (dedup_and_sort (collected w))) ∧
  (script w stamp).2 = TrackingCompleted.
Proof.
  intros H Hmax. unfold script, main.
  destruct (collected w) as [|r l] eqn:E; [done|].
  unfold create_crypto_comparison_chart.
  destruct (chart_bars_nonzero_max _ (latest_prices (dedup_and_sort (r :: l))) Hmax)
    as [bars ->].
  done.
Qed.

(** C9, on a run in which every request is answered
    [{"bitcoin": {"usd": 0}}]: four records are collected and the three
    output files are written, but the run does not complete normally; the
    comparison chart divides by the greatest latest price, which is zero,
    and the run ends in an uncaught [ValueError]. *)
Theorem zero_price_run_ends_in_traceback :
  length (collected zero_price_world) = 4 ∧
  length (script zero_price_world (clock 9)).1 = 3 ∧
  (script zero_price_world (clock 9)).2 = Traceback ValueError.
Proof. repeat split; vm_compute; reflexivity. Qed.

End whole_run.

(** ** Cleaning of scraped text *)

Section clean_text_properties.
Import PyStr Scraper ScraperText.
Local Open Scope nat_scope.

Lemma lstrip_head (s : str) (c : char) :
  head (lstrip s) = Some c → isspace c = false.
Proof.
  induction s as [|x s IH]; simpl; [done|].
  destruct (isspace x) eqn:Hx; [done|].
  simpl. by intros [= <-].
Qed.

Lemma lstrip_last (s : str) (c : char) :
  last (lstrip s) = Some c → last s = Some c.
Proof.
  intros H. destruct (lstrip_suffix s) as [k Hk].
  rewrite Hk at 1. rewrite last_app, H. done.
Qed.

Lemma lstrip_id (s : str) :
  (∀ c, head s = Some c → isspace c = false) → lstrip s = s.
Proof.
  destruct s as [|x s]; [done|]. simpl. intros H.
  by rewrite (H x eq_refl).
Qed.

(** What [strip] returns neither starts nor ends with whitespace. *)
Lemma strip_ends (s : str) (c : char) :
  head (strip s) = Some c ∨ last (strip s) = Some c → isspace c = false.
Proof.
  unfold strip. rewrite head_reverse, last_reverse. intros [H|H].
  - apply lstrip_last in H. rewrite last_reverse in H. by eapply lstrip_head.
  - by eapply lstrip_head.
Qed.

Lemma strip_id (s : str) :
  (∀ c, head s = Some c → isspace c = false) →
  (∀ c, last s = Some c → isspace c = false) →
  strip s = s.
Proof.
  intros Hh Hl. unfold strip. rewrite (lstrip_id s Hh).
  rewrite lstrip_id; [apply reverse_involutive|].
  intros c. rewrite head_reverse. apply Hl.
Qed.

Lemma filter_lstrip (s : list char) :
  filter (fun c => isspace c = false) (lstrip s)
  = filter (fun c => isspace c = false) s.
Proof.
  induction s as [|x s IH]; [done|]. cbn [lstrip].
  destruct (isspace x) eqn:Hx; [|done].
  rewrite filter_cons_False; [done|]. congruence.
Qed.

Lemma filter_strip (s : list char) :
  filter (fun c => isspace c = false) (strip s)
  = filter (fun c => isspace c = false) s.
Proof.
  unfold strip, str.
  by rewrite filter_reverse, filter_lstrip, filter_reverse,
    reverse_involutive, filter_lstrip.
Qed.

Lemma length_lstrip (s : str) : length (lstrip s) ≤ length s.
Proof.
  destruct (lstrip_suffix s) as [k Hk]. rewrite Hk at 2.
  rewrite length_app. lia.
Qed.

Lemma length_strip (s : str) : length (strip s) ≤ length s.
Proof.
  unfold strip. rewrite length_reverse.
  etransitivity; [apply length_lstrip|]. rewrite length_reverse.
  apply length_lstrip.
Qed.

Lemma filter_collapse_spaces (b : bool) (s : list char) :
  filter (fun c => isspace c = false) (collapse_spaces b s)
  = filter (fun c => isspace c = false) s.
Proof.
  unfold str.
  revert b. induction s as [|x s IH]; intros b; [done|]. cbn [collapse_spaces].
  destruct (isspace x) eqn:Hx.
  - rewrite (filter_cons_False _ x) by congruence.
    destruct b; [done|].
    rewrite filter_cons_False; [done|]. by vm_compute.
  - by rewrite !filter_cons_True, IH by done.
Qed.

Lemma length_collapse_spaces (b : bool) (s : str) :
  length (collapse_spaces b s) ≤ length s.
Proof.
  revert b. induction s as [|x s IH]; intros b; simpl; [done|].
  pose proof (IH true). pose proof (IH false).
  destruct (isspace x), b; simpl; lia.
Qed.

(** Inside the result every whitespace character is a space. *)
Lemma collapse_spaces_only_space (b : bool) (s : str) (c : char) :
  c ∈ collapse_spaces b s → isspace c = true → c = 32%N.
Proof.
  revert b. induction s as [|x s IH]; intros b; simpl.
  - by intros ?%elem_of_nil.
  - destruct (isspace x) eqn:Hx.
    + destruct b; [by apply IH|].
      intros [->|H]%elem_of_cons; [done|]. by eapply IH.
    + intros [->|H]%elem_of_cons; [congruence|]. by eapply IH.
Qed.

(** After a whitespace character the result continues with none. *)
Lemma collapse_spaces_head (s : str) (c : char) :
  head (collapse_spaces true s) = Some c → isspace c = false.
Proof.
  induction s as [|x s IH]; simpl; [done|].
  destruct (isspace x) eqn:Hx; [done|]. simpl. by intros [= <-].
Qed.

Lemma collapse_spaces_no_double (b : bool) (s : str) (i : nat) (c d : char) :
  collapse_spaces b s !! i = Some c →
  collapse_spaces b s !! S i = Some d →
  isspace c = true → isspace d = false.
Proof.
  revert b i. induction s as [|x s IH]; intros b i; simpl; [done|].
  destruct (isspace x) eqn:Hx.
  - destruct b; [by apply IH|].
    destruct i as [|i]; simpl.
    + intros _ Hd _. apply (collapse_spaces_head s). by rewrite head_lookup.
    + by apply IH.
  - destruct i as [|i]; simpl.
    + intros [= <-]. congruence.
    + by apply IH.
Qed.

Lemma collapse_spaces_last (b : bool) (s : str) (c : char) :
  last s = Some c → isspace c = false → last (collapse_spaces b s) = Some c.
Proof.
  revert b. induction s as [|x s IH]; intros b; [done|].
  destruct s as [|y s].
  - simpl. intros [= ->] ->. done.
  - rewrite last_cons_cons. intros Hl Hc.
    pose proof (IH true Hl Hc) as IHt. pose proof (IH false Hl Hc) as IHf.
    remember (y :: s) as s' eqn:Hs'. cbn [collapse_spaces].
    destruct (isspace x); [destruct b|]; by rewrite ?last_cons, ?IHt, ?IHf.
Qed.

Lemma collapse_spaces_head_nonspace (s : str) :
  (∀ c, head s = Some c → isspace c = false) →
  ∀ c, head (collapse_spaces false s) = Some c → isspace c = false.
Proof.
  destruct s as [|x s]; simpl; [done|]. intros H c.
  rewrite (H x eq_refl). simpl. intros [= <-]. by apply H.
Qed.

(** A text in normal form is left as it is. *)
Lemma collapse_spaces_id (s : str) :
  (∀ c, c ∈ s → isspace c = true → c = 32%N) →
  (∀ i c d, s !! i = Some c → s !! S i = Some d →
            isspace c = true → isspace d = false) →
  ∀ b, (b = true → ∀ c, head s = Some c → isspace c = false) →
       collapse_spaces b s = s.
Proof.
  induction s as [|x s IH]; intros Hsp Hdbl b Hb; simpl; [done|].
  assert (Hsp' : ∀ c, c ∈ s → isspace c = true → c = 32%N).
  { intros c Hc. apply Hsp. by right. }
  assert (Hdbl' : ∀ i c d, s !! i = Some c → s !! S i = Some d →
                           isspace c = true → isspace d = false).
  { intros i c d. apply (Hdbl (S i)). }
  destruct (isspace x) eqn:Hx.
  - destruct b; [by rewrite (Hb eq_refl x eq_refl) in Hx|].
    rewrite (Hsp x) by (done || by left). f_equal.
    apply IH; [done|done|]. intros _ c Hc.
    apply (Hdbl 0 x c); [done| |done]. simpl. by rewrite <- head_lookup.
  - f_equal. by apply IH.
Qed.

(** The shape of a cleaned text. *)
Lemma clean_text_shape (text : str) :
  (∀ c, head (clean_text text) = Some c → isspace c = false) ∧
  (∀ c, last (clean_text text) = Some c → isspace c = false) ∧
  (∀ c, c ∈ clean_text text → isspace c = true → c = 32%N) ∧
  (∀ i c d, clean_text text !! i = Some c → clean_text text !! S i = Some d →
            isspace c = true → isspace d = false).
Proof.
  destruct text as [|x text].
  { simpl. split; [done|]. split; [done|].
    split; [by intros c ?%elem_of_nil|done]. }
  unfold clean_text. set (s := strip (x :: text)).
  split; [|split; [|split]].
  - apply collapse_spaces_head_nonspace. intros c Hc. apply (strip_ends (x :: text)). by left.
  - intros c Hc.
    destruct (last s) as [d|] eqn:Hd.
    + assert (Hsd : isspace d = false) by (apply (strip_ends (x :: text)); by right).
      rewrite (collapse_spaces_last false s d Hd Hsd) in Hc. congruence.
    + apply last_None in Hd. rewrite Hd in Hc. done.
  - apply collapse_spaces_only_space.
  - apply collapse_spaces_no_double.
Qed.

(** X1.  The cleaned text neither starts nor ends with whitespace, its only
    whitespace character is the space, and no two spaces are adjacent. *)
Theorem clean_text_normal_form (text : str) :
  (∀ c, head (clean_text text) = Some c → isspace c = false) ∧
  (∀ c, last (clean_text text) = Some c → isspace c = false) ∧
  (∀ c, c ∈ clean_text text → isspace c = true → c = 32%N) ∧
  (∀ i c d, clean_text text !! i = Some c → clean_text text !! S i = Some d →
            isspace c = true → isspace d = false).
Proof. apply clean_text_shape. Qed.

(** X2.  Cleaning a cleaned text changes nothing. *)
Theorem clean_text_idempotent (text : str) :
  clean_text (clean_text text) = clean_text text.
Proof.
  destruct (clean_text_shape text) as (Hh & Hl & Hsp & Hdbl).
  destruct (clean_text text) as [|y r] eqn:E; [done|].
  unfold clean_text at 1. rewrite strip_id by done.
  apply collapse_spaces_id; [done|done|]. intros _. apply Hh.
Qed.

(** X3.  Cleaning removes or replaces whitespace only: the other characters are
    kept, in their order, and the text never grows. *)
Theorem clean_text_keeps_content (text : str) :
  filter (fun c => isspace c = false) (clean_text text)
  = filter (fun c => isspace c = false) text ∧
  length (clean_text text) ≤ length text.
Proof.
  destruct text as [|x text]; [done|]. unfold clean_text, str. split.
  - by rewrite filter_collapse_spaces, filter_strip.
  - etransitivity; [apply length_collapse_spaces|apply length_strip].
Qed.

End clean_text_properties.

(** ** More on the summary of an article *)

Section summary_properties.
Import PyStr Scraper ScraperText.
Local Open Scope nat_scope.

Lemma lstrip_nil_iff (s : str) :
  lstrip s = [] ↔ Forall (fun c => isspace c = true) s.
Proof.
  induction s as [|x s IH]; simpl; [by split|].
  destruct (isspace x) eqn:Hx.
  - rewrite IH. split; [by constructor|by intros [_ ?]%Forall_cons_1].
  - split; [done|]. intros [? _]%Forall_cons_1. congruence.
Qed.

(** [strip] leaves nothing exactly of the texts made of whitespace. *)
Lemma strip_nil_iff (s : str) :
  strip s = [] ↔ Forall (fun c => isspace c = true) s.
Proof.
  unfold strip. rewrite <- lstrip_nil_iff. split.
  - intros H. apply (f_equal length) in H. rewrite length_reverse in H.
    apply nil_length_inv, lstrip_nil_iff in H. rewrite Forall_reverse in H.
    destruct (lstrip s) as [|c r] eqn:E; [done|].
    apply Forall_cons_1 in H as [Hc _].
    pose proof (lstrip_head s c) as Hh. rewrite E in Hh.
    specialize (Hh eq_refl). congruence.
  - intros ->. done.
Qed.

(** The pieces of [re.split], put end to end, are the text without its
    terminators. *)
Lemma concat_re_split_aux (cur : str) (in_run : bool) (text : list char) :
  (in_run = true → cur = []) →
  concat (re_split_aux cur in_run text)
  = reverse cur ++ filter (fun c => is_terminator c = false) text.
Proof.
  revert cur in_run. induction text as [|c text IH]; intros cur in_run Hrun.
  - cbn [re_split_aux concat]. by rewrite filter_nil.
  - cbn [re_split_aux]. destruct (is_terminator c) eqn:Hc.
    + rewrite filter_cons_False by congruence.
      destruct in_run; cbn [concat]; rewrite IH by done.
      * by rewrite (Hrun eq_refl).
      * done.
    + rewrite filter_cons_True by done. rewrite IH by done.
      rewrite reverse_cons. by rewrite <- app_assoc.
Qed.

Lemma concat_re_split (text : list char) :
  concat (re_split text) = filter (fun c => is_terminator c = false) text.
Proof. unfold re_split. by rewrite concat_re_split_aux. Qed.

Lemma elem_of_concat {A} (x : A) (ls : list (list A)) :
  x ∈ concat ls ↔ ∃ l, x ∈ l ∧ l ∈ ls.
Proof.
  induction ls as [|l ls IH]; simpl.
  - split; [by intros ?%elem_of_nil|by intros (l & _ & ?%elem_of_nil)].
  - rewrite elem_of_app, IH. split.
    + intros [H|(l' & ? & ?)]; [exists l; split; [done|by left]|].
      exists l'. split; [done|by right].
    + intros (l' & Hx & [->|H]%elem_of_cons); [by left|].
      right. by exists l'.
Qed.

Lemma Forall_concat_iff {A} (P : A → Prop) (ls : list (list A)) :
  Forall P (concat ls) ↔ Forall (Forall P) ls.
Proof.
  induction ls as [|l ls IH]; simpl; [by split; constructor|].
  rewrite Forall_app, Forall_cons, IH. done.
Qed.

Lemma filter_nil_iff {A} (P : A → Prop) `{∀ x, Decision (P x)} (l : list A) :
  filter P l = [] ↔ Forall (fun x => ¬ P x) l.
Proof.
  induction l as [|x l IH]; [by split; constructor|].
  rewrite Forall_cons. destruct (decide (P x)).
  - rewrite filter_cons_True by done. split; [done|]. by intros [? _].
  - rewrite filter_cons_False by done. rewrite IH. by split; [|intros [_ ?]].
Qed.

(** A character of a sentence is a character of the text, and no
    terminator. *)
Lemma elem_of_sentence (text s : str) (c : char) :
  s ∈ sentences_of text → c ∈ s → c ∈ text ∧ is_terminator c = false.
Proof.
  unfold sentences_of.
  intros (piece & -> & [_ Hpiece]%list_elem_of_filter)%list_elem_of_fmap Hc.
  apply elem_of_strip in Hc.
  assert (H : c ∈ concat (re_split text)).
  { apply elem_of_concat. by exists piece. }
  rewrite concat_re_split in H.
  apply list_elem_of_filter in H as [? ?]. done.
Qed.

(** A text has no sentence exactly when it is made of terminators and
    whitespace. *)
Lemma sentences_of_nil_iff (text : str) :
  sentences_of text = [] ↔
  Forall (fun c => is_terminator c = true ∨ isspace c = true) text.
Proof.
  unfold sentences_of, str.
  transitivity (Forall (Forall (fun c => isspace c = true)) (re_split text)).
  { split.
    - intros H%fmap_nil_inv. apply filter_nil_iff in H.
      eapply Forall_impl; [exact H|]. intros piece Hp. simpl in Hp.
      apply strip_nil_iff. destruct (strip piece); [done|]. by destruct Hp.
    - intros H.
      match goal with |- _ <$> ?l = [] => assert (E : l = []) end.
      { apply filter_nil_iff. eapply Forall_impl; [exact H|].
        intros piece Hp. apply strip_nil_iff in Hp. by rewrite Hp. }
      by rewrite E. }
  rewrite <- Forall_concat_iff, concat_re_split, !Forall_forall. split.
  - intros H c Hc. destruct (is_terminator c) eqn:Ht; [by left|right].
    apply H. by apply list_elem_of_filter.
  - intros H c [Hc Hin]%list_elem_of_filter.
    destruct (H c Hin); [congruence|done].
Qed.

Lemma join_nil_iff (sep : str) (xs : list str) :
  Forall (fun x => x ≠ []) xs → (join sep xs = [] ↔ xs = []).
Proof.
  intros Hne. destruct xs as [|x xs]; [done|].
  apply Forall_cons_1 in Hne as [Hx _].
  split; [|done]. simpl. destruct xs; [done|].
  by intros [? _]%app_eq_nil.
Qed.

Lemma sentences_nonempty (text : str) :
  Forall (fun s : str => s ≠ []) (sentences_of text).
Proof.
  eapply Forall_impl; [apply sentences_of_spec|]. by intros s [? _].
Qed.

(** X4.  The summary is empty exactly for the texts without a sentence: those
    made of terminators and whitespace only (the empty text among them). *)
Theorem summary_empty_iff (text : str) (max_sentences : nat) :
  0 < max_sentences →
  (simple_summarize text max_sentences = [] ↔
   Forall (fun c => is_terminator c = true ∨ isspace c = true) text).
Proof.
  intros Hn. rewrite <- sentences_of_nil_iff.
  destruct (decide (text = [])) as [->|Hne]; [done|].
  rewrite simple_summarize_unfold by done. cbv zeta.
  set (used := take max_sentences (sentences_of text)).
  assert (Hused : join (lit ". ") used = [] ↔ sentences_of text = []).
  { rewrite join_nil_iff.
    - unfold used. destruct (sentences_of text), max_sentences; simpl; [done|done|lia|done].
    - apply Forall_take, sentences_nonempty. }
  destruct (Nat.ltb_spec 300 (length (join (lit ". ") used))) as [Hlong|Hshort].
  - split.
    + intros [_ H]%app_eq_nil. done.
    + intros H%Hused. rewrite H in Hlong. simpl in Hlong. lia.
  - done.
Qed.

Lemma summary_empty_iff_witness :
  simple_summarize (lit " ?!.. ") 3 = [] ↔
  Forall (fun c => is_terminator c = true ∨ isspace c = true) (lit " ?!.. ").
Proof. apply summary_empty_iff. lia. Defined.

Lemma elem_of_join (sep : str) (xs : list str) (c : char) :
  c ∈ join sep xs → c ∈ sep ∨ ∃ x, x ∈ xs ∧ c ∈ x.
Proof.
  induction xs as [|x xs IH]; simpl; [by intros ?%elem_of_nil|].
  destruct xs as [|y xs].
  - intros H. right. exists x. split; [by left|done].
  - rewrite !elem_of_app. intros [H|[H|H]].
    + right. exists x. split; [by left|done].
    + by left.
    + destruct (IH H) as [?|(z & Hz & ?)]; [by left|].
      right. exists z. split; [by right|done].
Qed.

(** X5.  The summary invents nothing: each of its characters is a character of
    the text that is no terminator, or a period or a space of the joints
    and of the ellipsis.  In particular "!" and "?" never occur in it. *)
Theorem summary_characters (text : str) (max_sentences : nat) (c : char) :
  c ∈ simple_summarize text max_sentences →
  (c ∈ text ∧ is_terminator c = false) ∨ c = 46%N ∨ c = 32%N.
Proof.
  destruct (decide (text = [])) as [->|Hne]; [by intros ?%elem_of_nil|].
  rewrite simple_summarize_unfold by done. cbv zeta.
  set (used := take max_sentences (sentences_of text)).
  assert (Hjoin : ∀ d, d ∈ join (lit ". ") used →
            (d ∈ text ∧ is_terminator d = false) ∨ d = 46%N ∨ d = 32%N).
  { intros d [Hd|(s & Hs & Hd)]%elem_of_join.
    - right. vm_compute in Hd.
      apply elem_of_cons in Hd as [->|Hd]; [by left|].
      apply elem_of_cons in Hd as [->|Hd]; [by right|].
      by apply elem_of_nil in Hd.
    - left. apply (elem_of_sentence text s); [|done].
      by apply (subseteq_take max_sentences). }
  destruct (300 <? length (join (lit ". ") used)); [|by apply Hjoin].
  intros [Hc|Hc]%elem_of_app.
  - apply Hjoin. by apply (subseteq_take 297).
  - right. left. vm_compute in Hc.
    repeat (apply elem_of_cons in Hc as [->|Hc]; [done|]).
    by apply elem_of_nil in Hc.
Qed.

Lemma summary_characters_witness :
  (83%N ∈ lit "Stop! Now" ∧ is_terminator 83%N = false) ∨ 83%N = 46%N ∨ 83%N = 32%N.
Proof.
  apply (summary_characters (lit "Stop! Now") 3). vm_compute. by left.
Defined.

Lemma re_split_aux_unpunctuated (cur : str) (text : str) :
  Forall (fun c => is_terminator c = false) text →
  re_split_aux cur false text = [reverse cur ++ text].
Proof.
  revert cur. induction text as [|c text IH]; intros cur Hall; simpl.
  - by rewrite app_nil_r.
  - apply Forall_cons_1 in Hall as [Hc Hall]. rewrite Hc.
    rewrite IH by done. by rewrite reverse_cons, <- app_assoc.
Qed.

(** X6.  A text without any terminator is one sentence: its summary is the text
    stripped of surrounding whitespace, as long as that is at most 300
    characters long. *)
Theorem unpunctuated_text_summary (text : str) (max_sentences : nat) :
  0 < max_sentences →
  Forall (fun c => is_terminator c = false) text →
  length (strip text) ≤ 300 →
  simple_summarize text max_sentences = strip text.
Proof.
  intros Hn Hall Hlen.
  destruct (decide (text = [])) as [->|Hne]; [done|].
  rewrite simple_summarize_unfold by done. cbv zeta.
  unfold sentences_of, re_split. rewrite re_split_aux_unpunctuated by done.
  change (reverse [] ++ text) with text.
  destruct (strip text) as [|y r] eqn:E.
  - rewrite filter_cons_False by (rewrite E; done).
    by destruct max_sentences.
  - rewrite filter_cons_True by (rewrite E; done).
    rewrite filter_nil. simpl fmap. rewrite E.
    destruct max_sentences as [|n]; [lia|]. simpl take. rewrite take_nil.
    simpl join.
    destruct (Nat.ltb_spec 300 (length (y :: r))); [lia|done].
Qed.

Lemma unpunctuated_text_summary_witness :
  simple_summarize (lit "  breaking news ") 3 = strip (lit "  breaking news ").
Proof.
  apply unpunctuated_text_summary; [lia| |vm_compute; lia].
  vm_compute. repeat constructor.
Defined.

Lemma join_last (Q : char → Prop) (sep : str) (xs : list str) :
  xs ≠ [] →
  Forall (fun x => ∃ c, last x = Some c ∧ Q c) xs →
  ∃ c, last (join sep xs) = Some c ∧ Q c.
Proof.
  induction xs as [|x xs IH]; [done|]. intros _ [Hx Hxs]%Forall_cons_1.
  destruct xs as [|y xs]; [done|].
  destruct (IH ltac:(done) Hxs) as (c & Hc & HQ).
  exists c. split; [|done].
  change (join sep (x :: y :: xs)) with (x ++ sep ++ join sep (y :: xs)).
  by rewrite !last_app, Hc.
Qed.

(** A sentence ends with a character that is neither whitespace nor a
    terminator. *)
Lemma sentence_last (text s : str) :
  s ∈ sentences_of text →
  ∃ c, last s = Some c ∧ isspace c = false ∧ is_terminator c = false.
Proof.
  intros Hs.
  pose proof (sentences_of_spec text) as Hspec.
  rewrite Forall_forall in Hspec. destruct (Hspec s Hs) as [Hne Hterm].
  destruct (last s) as [c|] eqn:Hl; [|by apply last_None in Hl].
  exists c. split; [done|]. split.
  - unfold sentences_of in Hs.
    apply list_elem_of_fmap in Hs as (piece & -> & _).
    apply (strip_ends piece). by right.
  - rewrite Forall_forall in Hterm. apply Hterm.
    by apply last_Some_elem_of.
Qed.

(** X7.  A summary that is not empty ends either with the ellipsis marker of a
    truncation (and is then 300 characters long) or with a character that
    is neither whitespace nor a terminator: the terminator that closed the
    last sentence taken is not part of the summary. *)
Theorem summary_ending (text : str) (max_sentences : nat) :
  simple_summarize text max_sentences = [] ∨
  (length (simple_summarize text max_sentences) = 300 ∧
   drop 297 (simple_summarize text max_sentences) = ellipsis) ∨
  ∃ c, last (simple_summarize text max_sentences) = Some c ∧
       isspace c = false ∧ is_terminator c = false.
Proof.
  destruct (decide (text = [])) as [->|Hne]; [by left|].
  rewrite simple_summarize_unfold by done. cbv zeta.
  set (used := take max_sentences (sentences_of text)).
  destruct (Nat.ltb_spec 300 (length (join (lit ". ") used))) as [Hlong|Hshort].
  - right. left. split; [by apply truncated_length|].
    rewrite drop_app_length'; [done|]. rewrite length_take. lia.
  - destruct (decide (used = [])) as [->|Hused]; [by left|].
    right. right. apply join_last; [done|].
    apply Forall_forall. intros s Hs. apply (sentence_last text).
    by apply (subseteq_take max_sentences).
Qed.

End summary_properties.

(** ** More on the wind index and the compass direction *)

Section weather_properties.
Import Weather.
Local Open Scope Q_scope.













End weather_properties.

(** ** More on the sampling rounds *)

Section round_properties.
Import Tracker TrackerLog Examples.
Local Open Scope nat_scope.

(** X13.  On a payload that is an object, the round succeeds exactly when every
    requested identifier the object holds has a usable entry; one bad
    entry among the requested ones fails the round, entries of other
    identifiers are never looked at. *)
Theorem object_round_succeeds_iff (crypto_symbols : list string)
    (now : string) (fields : gmap string json) :
  (∃ crypto_data,
     get_multiple_crypto_prices (Some crypto_symbols) (now, Payload (JObj fields))
     = (Some crypto_data, Some (JObj fields))) ↔
  (∀ id entry, id ∈ crypto_symbols → fields !! id = Some entry →
               usable_entry entry).
Proof.
  split; [|apply well_formed_round_succeeds].
  unfold get_multiple_crypto_prices, get_multiple_crypto_prices_try.
  simpl. unfold mbind, result_bind.
  destruct (collect now (JObj fields) crypto_symbols [] []) as [[recs ws]|e] eqn:Hc;
    [|by intros [? [=]]].
  intros _. revert Hc. generalize (@nil price_record) (@nil warning).
  induction crypto_symbols as [|id rest IH]; intros acc ws0 Hc id' entry Hin Hentry.
  { by apply elem_of_nil in Hin. }
  simpl in Hc. unfold mbind, result_bind in Hc.
  destruct (fields !! id) as [e|] eqn:Hid.
  - rewrite bool_decide_eq_true_2 in Hc by done.
    destruct e as [| | | | |efields]; try done. simpl in Hc.
    destruct (efields !! "usd"%string) as [price|] eqn:Husd; [|done].
    destruct (format_2f price) as [q|] eqn:Hq; [|done].
    apply elem_of_cons in Hin as [->|Hin].
    + rewrite Hid in Hentry. injection Hentry as <-. by exists efields, price, q.
    + by eapply IH.
  - rewrite bool_decide_eq_false_2 in Hc by (by intros [? ?]).
    apply elem_of_cons in Hin as [->|Hin]; [congruence|].
    by eapply IH.
Qed.





Lemma object_round_succeeds_iff_witness :
  ∃ crypto_data,
    get_multiple_crypto_prices (Some default_symbols)
      (clock 0, Payload (JObj {[ "bitcoin"%string := JObj {[ "usd"%string := JNum 114000 ]} ]}))
    = (Some crypto_data,
       Some (JObj {[ "bitcoin"%string := JObj {[ "usd"%string := JNum 114000 ]} ]})).
Proof.
  apply object_round_succeeds_iff.
  intros id entry _ [<- <-]%lookup_singleton_Some.
  exists {[ "usd"%string := JNum 114000 ]}, (JNum 114000), 114000%Q.
  split; [done|]. split; [done|]. vm_compute. reflexivity.
Defined.

Lemma sleeps_app (l1 l2 : list event) : sleeps (l1 ++ l2) = sleeps l1 ++ sleeps l2.
Proof. unfold sleeps. apply omap_app. Qed.

Lemma foldl_sample_step_log (samples interval : nat)
    (crypto_symbols : list string) (w : world) (l : list nat) :
  ∀ st,
    log (foldl (sample_step samples interval crypto_symbols w) st l)
    = log st ++
      concat ((fun i => Request i ::
                 (if i <? samples - 1 then [Sleep interval] else [])) <$> l).
Proof.
  induction l as [|i l IH]; intros st; simpl.
  - by rewrite app_nil_r.
  - rewrite IH. simpl. by rewrite <- app_assoc.
Qed.

(** X15.  The loop pauses between rounds only: [samples - 1] times, each for
    the configured interval, whether or not the rounds succeed, and the
    last thing it does is a request, not a pause. *)
Theorem sampling_loop_pauses (samples interval : nat)
    (crypto_symbols : list string) (w : world) :
  sleeps (log (sample_loop samples interval crypto_symbols w))
  = replicate (samples - 1) interval ∧
  (0 < samples →
   last (log (sample_loop samples interval crypto_symbols w))
   = Some (Request (samples - 1))).
Proof.
  unfold sample_loop. rewrite foldl_sample_step_log. simpl.
  destruct samples as [|n]; [split; [done|lia]|].
  replace (S n - 1) with n by lia.
  rewrite seq_S, fmap_app, concat_app. simpl.
  rewrite Nat.ltb_irrefl, app_nil_r. split.
  - rewrite sleeps_app. simpl. rewrite app_nil_r.
    assert (H : ∀ a k, a + k ≤ n →
              sleeps (concat ((fun i => Request i ::
                        (if i <? n then [Sleep interval] else [])) <$> seq a k))
              = replicate k interval).
    { intros a k. revert a. induction k as [|k IH]; intros a Hk; [done|].
      cbn [seq]. rewrite fmap_cons. cbn [concat].
      destruct (Nat.ltb_spec a n); [|lia].
      rewrite sleeps_app, IH by lia. done. }
    apply (H 0 n). lia.
  - intros _. by rewrite last_snoc.
Qed.

Lemma sampling_loop_pauses_witness :
  last (log (sample_loop 3 15 default_symbols one_failure_world))
  = Some (Request (3 - 1)).
Proof. apply sampling_loop_pauses. lia. Defined.

Lemma length_collect (now : string) (data : json) (crypto_symbols : list string) :
  ∀ acc ws recs ws',
    collect now data crypto_symbols acc ws = Ok (recs, ws') →
    length recs ≤ length acc + length crypto_symbols.
Proof.
  induction crypto_symbols as [|id rest IH]; intros acc ws recs ws'; simpl.
  - intros [= <- <-]. lia.
  - unfold mbind, result_bind.
    destruct (contains id data) as [present|]; [|done].
    destruct present.
    + destruct (getitem data id) as [entry|]; [|done].
      destruct (getitem entry "usd") as [price|]; [|done].
      destruct (format_2f price) as [p|]; [|done].
      intros H%IH. rewrite length_app in H. simpl in H. lia.
    + intros H%IH. lia.
Qed.

Lemma length_round_records (crypto_symbols : list string) (r : round_input) :
  length (round_records crypto_symbols r) ≤ length crypto_symbols.
Proof.
  unfold round_records, get_multiple_crypto_prices, get_multiple_crypto_prices_try.
  simpl. unfold mbind, result_bind.
  destruct (fetch r.2) as [d|]; [|simpl; lia].
  destruct (collect r.1 d crypto_symbols [] []) as [[recs ws]|] eqn:Hc; [|simpl; lia].
  apply length_collect in Hc. simpl in *.
  destruct recs; simpl in *; lia.
Qed.

(** X16.  The sampling routine returns [None] exactly when no round yielded a
    record; otherwise it returns the records of its rounds in order, at
    most one per round and requested symbol. *)
Theorem samples_over_time_result (samples interval : nat)
    (crypto_symbols : list string) (w : world) :
  let rows := concat (round_records crypto_symbols ∘ w <$> seq 0 samples) in
  length rows ≤ samples * length crypto_symbols ∧
  get_crypto_samples_over_time samples interval (Some crypto_symbols) w
  = match rows with [] => None | _ => Some rows end.
Proof.
  cbv zeta. split.
  - generalize 0. induction samples as [|n IH]; intros a; [simpl; lia|].
    cbn [seq]. rewrite fmap_cons. cbn [concat].
    rewrite length_app. specialize (IH (S a)).
    pose proof (length_round_records crypto_symbols (w a)) as H.
    unfold compose at 1. lia.
  - unfold get_crypto_samples_over_time. simpl default.
    rewrite sample_loop_records.
    by destruct (concat (round_records crypto_symbols ∘ w <$> seq 0 samples)).
Qed.

End round_properties.

(** ** More on deduplication and sorting *)

Section dedup_properties.
Import Tracker Examples.
Local Open Scope nat_scope.

Lemma drop_duplicates_from_first (seen : gset key) (df : list price_record)
    (row : price_record) :
  row ∈ drop_duplicates_from seen df →
  ∃ i, df !! i = Some row ∧ (key_of row ∉ seen) ∧
       ∀ j r, j < i → df !! j = Some r → key_of r ≠ key_of row.
Proof.
  revert seen. induction df as [|r df IH]; intros seen; simpl.
  { by intros ?%elem_of_nil. }
  destruct (decide (key_of r ∈ seen)) as [Hin|Hout].
  - intros (i & Hi & Hk & Hfirst)%IH. exists (S i).
    split; [done|]. split; [done|].
    intros [|j] r' Hj; simpl.
    + intros [= <-] E. apply Hk. by rewrite <- E.
    + apply Hfirst. lia.
  - intros [->|Hrow]%elem_of_cons.
    + exists 0. split; [done|]. split; [done|]. intros j r' Hj. lia.
    + apply IH in Hrow as (i & Hi & Hk & Hfirst). exists (S i).
      split; [done|]. split.
      { intros ?. apply Hk. by apply elem_of_union_r. }
      intros [|j] r' Hj; simpl.
      * intros [= <-] E. apply Hk. apply elem_of_union_l, elem_of_singleton.
        by symmetry.
      * apply Hfirst. lia.
Qed.

(** X17.  Of several records with one (time, symbol) pair the result holds the
    one that came first in the input. *)
Theorem dedup_keeps_first_occurrence (df : list price_record)
    (row : price_record) :
  row ∈ dedup_and_sort df →
  ∃ i, df !! i = Some row ∧
       ∀ j r, j < i → df !! j = Some r → key_of r ≠ key_of row.
Proof.
  unfold dedup_and_sort, sort_values, drop_duplicates.
  rewrite merge_sort_Permutation.
  intros (i & Hi & _ & Hfirst)%drop_duplicates_from_first. by exists i.
Qed.

Lemma dedup_keeps_first_occurrence_witness :
  ∃ i, [ {| time := clock 0; symbol := "BTC"; usd_price := 1 |};
         {| time := clock 0; symbol := "BTC"; usd_price := 2 |} ] !! i
       = Some {| time := clock 0; symbol := "BTC"; usd_price := 1 |} ∧
       ∀ j r, j < i →
         [ {| time := clock 0; symbol := "BTC"; usd_price := 1 |};
           {| time := clock 0; symbol := "BTC"; usd_price := 2 |} ] !! j = Some r →
         key_of r ≠ key_of {| time := clock 0; symbol := "BTC"; usd_price := 1 |}.
Proof.
  apply dedup_keeps_first_occurrence. vm_compute. by left.
Defined.

Lemma drop_duplicates_from_id (seen : gset key) (df : list price_record) :
  NoDup (key_of <$> df) → (∀ r, r ∈ df → key_of r ∉ seen) →
  drop_duplicates_from seen df = df.
Proof.
  revert seen. induction df as [|r df IH]; intros seen Hnd Hseen; simpl; [done|].
  rewrite fmap_cons in Hnd. apply NoDup_cons in Hnd as [Hr Hnd].
  rewrite decide_False by (apply Hseen; by left).
  f_equal. apply IH; [done|].
  intros r' Hr' [E%elem_of_singleton|Hin]%elem_of_union.
  - apply Hr. rewrite <- E. by apply list_elem_of_fmap_2.
  - by apply (Hseen r'); [right|].
Qed.

Lemma key_of_inj_on (l : list price_record) (x y : price_record) :
  NoDup (key_of <$> l) → x ∈ l → y ∈ l → key_of x = key_of y → x = y.
Proof.
  induction l as [|r l IH]; [by intros _ ?%elem_of_nil|].
  rewrite fmap_cons. intros [Hr Hnd]%NoDup_cons.
  intros [->|Hx]%elem_of_cons [->|Hy]%elem_of_cons E; [done| | |by apply IH].
  - exfalso. apply Hr. rewrite E. by apply list_elem_of_fmap_2.
  - exfalso. apply Hr. rewrite <- E. by apply list_elem_of_fmap_2.
Qed.

Lemma key_compare_antisym (a b : key) :
  key_compare b a = CompOpp (key_compare a b).
Proof.
  unfold key_compare.
  rewrite (String.compare_antisym a.1 b.1), (String.compare_antisym a.2 b.2).
  by destruct (String.compare b.1 a.1), (String.compare b.2 a.2).
Qed.

Lemma record_le_antisym_keys (x y : price_record) :
  record_le x y → record_le y x → key_of x = key_of y.
Proof.
  unfold record_le, key_le. intros Hxy Hyx.
  rewrite key_compare_antisym in Hyx.
  destruct (key_compare (key_of x) (key_of y)) eqn:E; [|done|done].
  by apply key_compare_Eq.
Qed.

(** A list whose (time, symbol) pairs are distinct and in order is left
    as it is. *)
Lemma dedup_and_sort_fixpoint (l : list price_record) :
  NoDup (key_of <$> l) → StronglySorted record_le l → dedup_and_sort l = l.
Proof.
  intros Hnd Hs. unfold dedup_and_sort, sort_values, drop_duplicates.
  rewrite drop_duplicates_from_id by (done || intros; apply not_elem_of_empty).
  apply (StronglySorted_unique_strong record_le).
  - intros x1 x2 Hx1 Hx2 H12 H21. rewrite merge_sort_Permutation in Hx1.
    apply (key_of_inj_on l); [done..|]. by apply record_le_antisym_keys.
  - apply StronglySorted_merge_sort; [apply record_le_trans|apply record_le_total].
  - done.
  - apply merge_sort_Permutation.
Qed.

(** X18.  Running the step twice gives what running it once gives. *)
Theorem dedup_and_sort_idempotent (df : list price_record) :
  dedup_and_sort (dedup_and_sort df) = dedup_and_sort df.
Proof.
  destruct (dedup_keys_nodup_sorted df) as [Hnd Hs].
  by apply dedup_and_sort_fixpoint.
Qed.

(** X19.  When no two records share their (time, symbol) pair, as for rounds
    taken at different seconds, the step drops nothing: it only reorders. *)
Theorem dedup_and_sort_distinct_keys (df : list price_record) :
  NoDup (key_of <$> df) → dedup_and_sort df ≡ₚ df.
Proof.
  intros Hnd. unfold dedup_and_sort, sort_values, drop_duplicates.
  rewrite merge_sort_Permutation.
  rewrite drop_duplicates_from_id; [done|done|].
  intros; apply not_elem_of_empty.
Qed.

Lemma dedup_and_sort_distinct_keys_witness :
  dedup_and_sort
    [ {| time := clock 1; symbol := "BTC"; usd_price := 2 |};
      {| time := clock 0; symbol := "BTC"; usd_price := 1 |} ]
  ≡ₚ [ {| time := clock 1; symbol := "BTC"; usd_price := 2 |};
       {| time := clock 0; symbol := "BTC"; usd_price := 1 |} ].
Proof.
  apply dedup_and_sort_distinct_keys. vm_compute.
  constructor; [|constructor; [apply not_elem_of_nil|constructor]].
  intros [E|H]%elem_of_cons; [discriminate E|by apply elem_of_nil in H].
Defined.

End dedup_properties.

(** ** The comparison chart *)

Section chart_properties.
Import Tracker TrackerChart Examples.
Local Open Scope Q_scope.

#[local] Instance price_ge_trans : Transitive price_ge.
Proof.
  intros a b c. unfold price_ge. rewrite !Qle_bool_iff. intros ? ?. lra.
Qed.

#[local] Instance price_ge_total : Total price_ge.
Proof.
  intros a b. unfold price_ge. rewrite !Qle_bool_iff.
  destruct (Qlt_le_dec a.2 b.2); [right|left]; lra.
Qed.
















End chart_properties.

(** ** The alert file and the whole run *)

Section run_properties.
Import Tracker TrackerAlerts Examples MoreExamples.
Local Open Scope nat_scope.

Lemma alert_for_configured (row : price_record) :
  configured row → ∃ a, alert_for row = Some a ∧ alert_of_row row a.
Proof.
  unfold configured, alert_of_row, saved_classification, alert_for.
  intros [th Hth]. rewrite Hth. eexists. split; [done|]. simpl.
  repeat split; try done. by destruct th.
Qed.

Lemma alert_for_unconfigured (row : price_record) :
  ¬ configured row → alert_for row = None.
Proof.
  unfold configured, alert_for. intros H.
  destruct (PRICE_THRESHOLDS !! symbol row); [|done].
  exfalso. apply H. by eexists.
Qed.

Lemma omap_alert_for (df : list price_record) :
  Forall2 alert_of_row (filter configured df) (omap alert_for df).
Proof.
  induction df as [|row df IH]; [constructor|].
  destruct (decide (configured row)) as [Hc|Hc].
  - rewrite filter_cons_True by done.
    destruct (alert_for_configured row Hc) as (a & Ha & Hrow).
    cbn [omap list_omap]. rewrite Ha. by constructor.
  - rewrite filter_cons_False by done.
    cbn [omap list_omap]. by rewrite alert_for_unconfigured.
Qed.

Lemma save_threshold_alerts_rows (df : list price_record) (base : string) :
  filter configured df ≠ [] →
  ∃ alerts,
    save_threshold_alerts df base
    = ([((base +:+ "_alerts.csv")%string, AlertsCsv alerts)], Some alerts) ∧
    Forall2 alert_of_row (filter configured df) alerts.
Proof.
  pose proof (omap_alert_for df) as H. unfold save_threshold_alerts.
  intros Hne. exists (omap alert_for df). split; [|done].
  destruct (omap alert_for df) as [|a l]; [|done].
  apply Forall2_nil_inv_r in H. done.
Qed.

(** X22.  The alert file holds one row for each price row whose symbol has
    configured bounds, in the order of the frame; rows of other symbols
    are left out without notice, and when none is left no file is written
    and [None] is returned. *)
Theorem save_threshold_alerts_result (df : list price_record) (base : string) :
  (filter configured df = [] → save_threshold_alerts df base = ([], None)) ∧
  (filter configured df ≠ [] →
   ∃ alerts,
     save_threshold_alerts df base
     = ([((base +:+ "_alerts.csv")%string, AlertsCsv alerts)], Some alerts) ∧
     Forall2 alert_of_row (filter configured df) alerts).
Proof.
  split; [|apply save_threshold_alerts_rows].
  pose proof (omap_alert_for df) as H. unfold save_threshold_alerts.
  intros E. rewrite E in H. apply Forall2_nil_inv_l in H. by rewrite H.
Qed.

Lemma save_threshold_alerts_result_witness :
  save_threshold_alerts
    [{| time := clock 0; symbol := "XRP"; usd_price := 2 |}]
    "multi_crypto_tracker" = ([], None).
Proof. apply save_threshold_alerts_result. vm_compute. reflexivity. Defined.

(** The records of a round over the three default identifiers carry the
    symbols BTC, ETH or DOGE, each of which has configured bounds. *)
Lemma round_records_configured (r : round_input) :
  Forall configured (round_records default_symbols r).
Proof.
  unfold round_records, get_multiple_crypto_prices, get_multiple_crypto_prices_try.
  simpl default. unfold mbind, result_bind.
  destruct (fetch r.2) as [d|]; [|constructor].
  destruct (collect r.1 d default_symbols [] []) as [[recs ws]|] eqn:Hc;
    [|constructor].
  apply collect_spec in Hc as (new & -> & Hnew). simpl.
  assert (H : Forall configured new).
  { apply Forall_forall. intros row Hrow.
    apply list_elem_of_lookup in Hrow as [i Hi].
    destruct (Forall2_lookup_r _ _ _ _ _ Hnew Hi) as (id & Hid & Hrec).
    apply list_elem_of_lookup_2, list_elem_of_filter in Hid as [_ Hid].
    destruct Hrec as (_ & Hsym & _). unfold configured. rewrite Hsym.
    unfold default_symbols in Hid.
    repeat (apply elem_of_cons in Hid as [->|Hid]; [by vm_compute; eexists|]).
    by apply elem_of_nil in Hid. }
  by destruct new.
Qed.

Lemma collected_configured (w : world) : Forall configured (collected w).
Proof.
  rewrite collected_rounds. simpl.
  rewrite !Forall_app. repeat split; try apply round_records_configured.
  constructor.
Qed.

Lemma length_drop_duplicates_from (seen : gset key) (df : list price_record) :
  length (drop_duplicates_from seen df) ≤ length df.
Proof.
  revert seen. induction df as [|r df IH]; intros seen; simpl; [done|].
  destruct (decide _); simpl; [specialize (IH seen)|specialize (IH ({[key_of r]} ∪ seen))]; lia.
Qed.

Lemma length_dedup_and_sort (df : list price_record) :
  length (dedup_and_sort df) ≤ length df.
Proof.
  unfold dedup_and_sort, sort_values, drop_duplicates.
  rewrite merge_sort_Permutation. apply length_drop_duplicates_from.
Qed.

(** X23.  A run makes four requests for three symbols: it never holds more than
    twelve records, so that no output file has more than twelve rows, and
    every record carries a symbol with configured bounds. *)
Theorem run_collects_at_most_twelve (w : world) :
  length (collected w) ≤ 12 ∧
  length (dedup_and_sort (collected w)) ≤ 12 ∧
  Forall configured (collected w).
Proof.
  assert (Hlen : length (collected w) ≤ 12).
  { rewrite collected_rounds. simpl. rewrite !length_app. simpl.
    pose proof (length_round_records default_symbols (w 0)).
    pose proof (length_round_records default_symbols (w 1)).
    pose proof (length_round_records default_symbols (w 2)).
    pose proof (length_round_records default_symbols (w 3)).
    unfold compose. simpl in *. lia. }
  split; [done|]. split; [|apply collected_configured].
  etransitivity; [apply length_dedup_and_sort|done].
Qed.

(** X24.  In a run that completes, the alert file is written and has an alert
    row for every row of the price file, in the same order. *)
Theorem completed_run_alerts_every_row (w : world) (stamp : string)
    (df : list price_record) :
  returned (main w stamp) = Ok (Some df) →
  length (files (main w stamp)) = 4 ∧
  files (main w stamp) !! 0
    = Some ("multi_crypto_tracker.csv"%string, PriceCsv df) ∧
  ∃ alerts,
    files (main w stamp) !! 3
    = Some ("multi_crypto_tracker_alerts.csv"%string, AlertsCsv alerts) ∧
    Forall2 alert_of_row df alerts.
Proof.
  unfold main.
  destruct (collected w) as [|r l] eqn:E; [done|].
  destruct (create_crypto_comparison_chart _); [|done].
  simpl. intros [= <-].
  set (df := dedup_and_sort (r :: l)).
  assert (Hconf : Forall configured df).
  { apply Forall_forall. intros row Hrow.
    apply (proj1 (dedup_and_sort_keys (r :: l))) in Hrow. rewrite <- E in Hrow.
    pose proof (collected_configured w) as H. rewrite Forall_forall in H.
    by apply H. }
  assert (Hfilter : filter configured df = df).
  { clear -Hconf. induction df as [|x df IH]; [done|].
    apply Forall_cons_1 in Hconf as [Hx Hconf].
    rewrite filter_cons_True by done. by rewrite IH. }
  assert (Hne : df ≠ []).
  { intros Hnil.
    destruct (dedup_and_sort_keys (r :: l)) as [_ Hkeys].
    specialize (Hkeys (key_of r)). fold df in Hkeys. rewrite Hnil in Hkeys.
    assert (key_of r ∈ key_of <$> r :: l) as H%Hkeys by (rewrite fmap_cons; by left).
    by apply elem_of_nil in H. }
  destruct (save_threshold_alerts_rows df base_filename) as (alerts & -> & Hrows).
  { by rewrite Hfilter. }
  rewrite Hfilter in Hrows. simpl. split; [done|]. split; [done|].
  by exists alerts.
Qed.

Lemma completed_run_alerts_every_row_witness :
  length (files (main steady_world (clock 9))) = 4 ∧
  files (main steady_world (clock 9)) !! 0
    = Some ("multi_crypto_tracker.csv"%string,
            PriceCsv (dedup_and_sort (collected steady_world))) ∧
  ∃ alerts,
    files (main steady_world (clock 9)) !! 3
    = Some ("multi_crypto_tracker_alerts.csv"%string, AlertsCsv alerts) ∧
    Forall2 alert_of_row (dedup_and_sort (collected steady_world)) alerts.
Proof.
  apply completed_run_alerts_every_row. vm_compute. reflexivity.
Defined.

(** X25.  The raw JSON file mirrors the payload of the first request only: when
    that request fails, the file holds an empty object under
    "raw_api_response" even though later rounds delivered the records it
    lists. *)
Theorem raw_response_mirrors_first_request (w : world) (stamp : string) :
  collected w ≠ [] →
  ∃ raw,
    files (main w stamp) !! 2
    = Some ("multi_crypto_tracker_raw.json"%string,
            RawJson stamp ["BTC"; "ETH"; "DOGE"]%string
              (length (dedup_and_sort (collected w)))
              (dedup_and_sort (collected w)) raw) ∧
    (round_fails default_symbols (w 0) → raw = JObj ∅) ∧
    (∀ data, (get_multiple_crypto_prices (Some default_symbols) (w 0)).2 = Some data →
             truthy data = true → raw = data).
Proof.
  intros Hne. unfold main.
  destruct (collected w) as [|r l] eqn:E; [done|].
  eexists. split.
  - by destruct (create_crypto_comparison_chart _).
  - split.
    + intros Hfail. by rewrite (round_fails_returns_None _ _ Hfail).
    + intros data -> ->. done.
Qed.

Lemma raw_response_mirrors_first_request_witness :
  ∃ raw,
    files (main first_failure_world (clock 9)) !! 2
    = Some ("multi_crypto_tracker_raw.json"%string,
            RawJson (clock 9) ["BTC"; "ETH"; "DOGE"]%string
              (length (dedup_and_sort (collected first_failure_world)))
              (dedup_and_sort (collected first_failure_world)) raw) ∧
    (round_fails default_symbols (first_failure_world 0) → raw = JObj ∅) ∧
    (∀ data,
       (get_multiple_crypto_prices (Some default_symbols) (first_failure_world 0)).2
       = Some data → truthy data = true → raw = data).
Proof.
  apply raw_response_mirrors_first_request. vm_compute. discriminate.
Defined.

End run_properties.


(** ** The scraping loops of enhanced_scraper.py and enhanced_scraper_v2.py *)

Section scraping_properties.
Import PyStr Scraper ScraperText Articles ArticleExamples.
Local Open Scope nat_scope.

Lemma first_content_decides (select_one : string → option (list str))
    (before : list string) (selector : string) (after : list string)
    (paragraphs : list str) :
  Forall (fun s => select_one s = None) before →
  select_one selector = Some paragraphs →
  first_content select_one (before ++ selector :: after)
  = join (lit " ") (filter (fun p => nonempty p = true) paragraphs).
Proof.
  intros Hb Hs. induction Hb as [|s before Hn _ IH]; simpl.
  - by rewrite Hs.
  - by rewrite Hn.
Qed.

Lemma length_make_preview (content : str) :
  length (make_preview content)
  = if 200 <? length content then 203 else length content.
Proof.
  unfold make_preview. destruct (Nat.ltb_spec 200 (length content)); [|done].
  rewrite length_app, length_take, length_ellipsis. lia.
Qed.

Lemma length_simple_summarize (text : str) (n : nat) :
  length (simple_summarize text n) ≤ 300.
Proof.
  destruct text as [|c text]; [simpl; lia|].
  rewrite simple_summarize_unfold by done. cbv zeta.
  destruct (Nat.ltb_spec 300
              (length (join (lit ". ") (take n (sentences_of (c :: text)))))).
  - by rewrite truncated_length.
  - done.
Qed.

Lemma length_omap_le {A B : Type} (f : A → option B) (l : list A) :
  length (omap f l) ≤ length l.
Proof.
  induction l as [|x l IH]; [done|].
  change (omap f (x :: l))
    with (match f x with Some y => y :: omap f l | None => omap f l end).
  destruct (f x); simpl; lia.
Qed.

Lemma sum_list_append (l k : list nat) :
  sum_list (l ++ k) = sum_list l + sum_list k.
Proof. induction l as [|x l IH]; simpl; lia. Qed.

Lemma listings_app (l k : list event) :
  listings (l ++ k) = listings l ++ listings k.
Proof. apply omap_app. Qed.

Lemma listings_sleeps (n s : nat) : listings (replicate n (Sleep s)) = [].
Proof. induction n as [|n IH]; [done|]. simpl. apply IH. Qed.

Lemma slept_app (l k : list event) : slept (l ++ k) = slept l + slept k.
Proof. unfold slept. by rewrite omap_app, sum_list_append. Qed.

Lemma slept_sleeps (n s : nat) : slept (replicate n (Sleep s)) = n * s.
Proof.
  induction n as [|n IH]; [done|].
  change (slept (replicate (S n) (Sleep s)))
    with (s + slept (replicate n (Sleep s))). lia.
Qed.

Lemma article_of_spec (w : web) (n : nat) (cat : option str) (base : str)
    (i : nat) (el : title_element) (a : article_data) :
  article_of w n cat base i el = Some a →
  page a = n ∧ category a = cat ∧ record_of_article w a.
Proof.
  unfold article_of. destruct (href el) as [[|c u]|]; [done| |done].
  intros [= <-]. by repeat split.
Qed.

(** The effect of one turn of the loop over the pages. *)
Lemma scrape_page_effect (w : web) (max_pages articles_per_page : nat)
    (choose : (string → list title_element) → list title_element)
    (n : nat) (url base : str) (cat : option str) (st : state) :
  ∃ (new : list article_data) (pause : nat),
    all_articles_data
      (scrape_page w max_pages articles_per_page choose n url base cat st)
    = all_articles_data st ++ new ∧
    log (scrape_page w max_pages articles_per_page choose n url base cat st)
    = log st ++ GetListing url :: replicate (length new) (Sleep 1)
               ++ replicate pause (Sleep 2) ∧
    length new ≤ articles_per_page ∧
    pause ≤ 1 ∧ (pause = 1 → n < max_pages) ∧
    Forall (fun a => page a = n ∧ category a = cat ∧ record_of_article w a) new.
Proof.
  unfold scrape_page.
  destruct (get_listing w url) as [|select].
  { exists [], 0. simpl. rewrite app_nil_r. repeat split; try lia. constructor. }
  destruct (choose select) as [|el els] eqn:E.
  { exists [], 0. simpl. rewrite app_nil_r. repeat split; try lia. constructor. }
  set (new := omap id (imap (article_of w n cat base)
                         (take articles_per_page (el :: els)))).
  exists new, (if n <? max_pages then 1 else 0). simpl.
  split; [done|]. split.
  { rewrite <- app_assoc. simpl. by destruct (n <? max_pages). }
  split.
  { unfold new. etransitivity; [apply length_omap_le|].
    rewrite length_imap, length_take. lia. }
  split; [destruct (n <? max_pages); lia|]. split.
  { destruct (Nat.ltb_spec n max_pages); [done|lia]. }
  apply Forall_forall. intros a Ha.
  apply list_elem_of_omap in Ha as (o & Ho & Ha). simpl in Ha. subst o.
  apply elem_of_lookup_imap in Ho as (i & y & Hy & _).
  symmetry in Hy. by apply article_of_spec in Hy.
Qed.

(** The effect of the whole loop, for a loop body with the effect of
    [scrape_page] on the pages it is run on. *)
Lemma foldl_scrape (f : state → nat → state) (url_of : nat → str)
    (P : nat → article_data → Prop) (max_pages articles_per_page : nat)
    (pages : list nat) :
  (∀ st n, n ∈ pages →
     ∃ (new : list article_data) (pause : nat),
       all_articles_data (f st n) = all_articles_data st ++ new ∧
       log (f st n)
       = log st ++ GetListing (url_of n) :: replicate (length new) (Sleep 1)
                  ++ replicate pause (Sleep 2) ∧
       length new ≤ articles_per_page ∧
       pause ≤ 1 ∧ (pause = 1 → n < max_pages) ∧
       Forall (P n) new) →
  ∀ st, ∃ new : list article_data,
    all_articles_data (foldl f st pages) = all_articles_data st ++ new ∧
    listings (log (foldl f st pages))
    = listings (log st) ++ (url_of <$> pages) ∧
    length new ≤ length pages * articles_per_page ∧
    slept (log st) + length new ≤ slept (log (foldl f st pages)) ∧
    slept (log (foldl f st pages))
    ≤ slept (log st) + length new
      + 2 * length (filter (fun n => n < max_pages) pages) ∧
    Forall (fun a => ∃ n, n ∈ pages ∧ P n a) new.
Proof.
  induction pages as [|n pages IH]; intros Hf st.
  { exists []. simpl. rewrite !app_nil_r. repeat split; try lia. constructor. }
  destruct (Hf st n) as (new & pause & Ha & Hl & Hn & Hp & Hlt & HP);
    [by left|].
  destruct (IH (fun st' m Hm => Hf st' m (list_elem_of_further _ _ _ Hm)) (f st n))
    as (new' & Ha' & Hl' & Hn' & Hlo & Hhi & HP').
  exists (new ++ new'). simpl foldl.
  assert (Hs : slept (log (f st n)) = slept (log st) + length new + 2 * pause).
  { rewrite Hl, slept_app.
    change (GetListing (url_of n) :: ?l) with ([GetListing (url_of n)] ++ l).
    rewrite !slept_app, !slept_sleeps. simpl. lia. }
  assert (Hg : listings (log (f st n)) = listings (log st) ++ [url_of n]).
  { rewrite Hl, listings_app.
    change (GetListing (url_of n) :: ?l) with ([GetListing (url_of n)] ++ l).
    by rewrite !listings_app, !listings_sleeps, app_nil_r. }
  split; [by rewrite Ha', Ha, app_assoc|]. split.
  { rewrite Hl', Hg, <- app_assoc. done. }
  rewrite length_app. split; [simpl; lia|]. split; [lia|]. split.
  { assert (pause ≤ length (filter (fun n => n < max_pages) [n])).
    { destruct (decide (pause = 1)) as [->|]; [|lia].
      rewrite filter_cons_True by auto. simpl. lia. }
    change (n :: pages) with ([n] ++ pages).
    rewrite filter_app, length_app. lia. }
  apply Forall_app. split.
  - eapply Forall_impl; [exact HP|]. intros a Pa. exists n. split; [by left|done].
  - eapply Forall_impl; [exact HP'|]. intros a (m & Hm & Pa).
    exists m. split; [by right|done].
Qed.

Lemma save_csv_state (filename : string) (st : state) :
  (save_csv filename st).1 = st.
Proof. unfold save_csv. by destruct (all_articles_data st). Qed.

Lemma length_filter_lt_seq (m : nat) :
  length (filter (fun n => n < m) (seq 1 m)) ≤ m - 1.
Proof.
  destruct m as [|m]; [done|].
  rewrite seq_S, filter_app, length_app.
  rewrite filter_cons_False by (simpl; lia). rewrite filter_nil.
  pose proof (length_filter (fun n => n < S m) (seq 1 m)) as H.
  rewrite length_seq in H. simpl. lia.
Qed.

(** The loop of enhanced_scraper.py as a whole. *)
Lemma scrape_enhanced_effect (w : web) (max_pages articles_per_page : nat) :
  let st := (scrape_vnexpress_enhanced w max_pages articles_per_page).1 in
  listings (log st) = page_url <$> seq 1 max_pages ∧
  length (all_articles_data st) ≤ max_pages * articles_per_page ∧
  length (all_articles_data st) ≤ slept (log st) ∧
  slept (log st) ≤ length (all_articles_data st) + 2 * (max_pages - 1) ∧
  Forall (fun a => 1 ≤ page a ≤ max_pages ∧ category a = None ∧
                   record_of_article w a) (all_articles_data st).
Proof.
  unfold scrape_vnexpress_enhanced. rewrite save_csv_state.
  edestruct (foldl_scrape
    (fun st page_num =>
       scrape_page w max_pages articles_per_page title_elements_v1
         page_num (page_url page_num) (page_url page_num) None st)
    page_url
    (fun n a => page a = n ∧ category a = None ∧ record_of_article w a)
    max_pages articles_per_page (seq 1 max_pages))
    as (new & Ha & Hl & Hn & Hlo & Hhi & HP).
  { intros st n _. apply scrape_page_effect. }
  cbv zeta. rewrite Ha, Hl. simpl in *. rewrite length_seq in Hn.
  pose proof (length_filter_lt_seq max_pages).
  repeat split; [done|lia|lia|].
  eapply Forall_impl; [exact HP|].
  intros a (n & Hin & <- & Hc & Hr). apply elem_of_seq in Hin.
  repeat split; [lia|lia|done|apply Hr..].
Qed.

Lemma category_pages_spec (max_pages : nat) :
  category_pages max_pages = seq 1 (min max_pages 10).
Proof. unfold category_pages. f_equal. simpl length. lia. Qed.

Lemma category_urls (max_pages : nat) :
  (fun n => match categories !! (n - 1) with
            | Some (_, url) => url
            | None => []
            end) <$> seq 1 (min max_pages 10)
  = snd <$> take max_pages categories.
Proof.
  do 10 (destruct max_pages as [|max_pages]; [reflexivity|]).
  replace (min _ 10) with 10 by lia.
  rewrite take_ge by (simpl; lia). reflexivity.
Qed.

(** The loop of enhanced_scraper_v2.py as a whole. *)
Lemma scrape_categories_effect (w : web) (max_pages articles_per_page : nat) :
  let st := (scrape_vnexpress_categories w max_pages articles_per_page).1 in
  listings (log st) = snd <$> take max_pages categories ∧
  length (all_articles_data st) ≤ min max_pages 10 * articles_per_page ∧
  Forall (fun a => (∃ name url, categories !! (page a - 1) = Some (name, url) ∧
                                category a = Some name) ∧
                   1 ≤ page a ≤ min max_pages 10 ∧
                   record_of_article w a) (all_articles_data st).
Proof.
  unfold scrape_vnexpress_categories. rewrite save_csv_state.
  rewrite category_pages_spec.
  edestruct (foldl_scrape
    (fun st page_num =>
       match categories !! (page_num - 1) with
       | Some (category_name, url) =>
           scrape_page w max_pages articles_per_page title_elements_v2
             page_num url (lit "https://vnexpress.net")
             (Some category_name) st
       | None => st
       end)
    (fun n => match categories !! (n - 1) with
              | Some (_, url) => url
              | None => []
              end)
    (fun n a => (∃ name url, categories !! (n - 1) = Some (name, url) ∧
                             category a = Some name) ∧
                page a = n ∧ record_of_article w a)
    max_pages articles_per_page (seq 1 (min max_pages 10)))
    as (new & Ha & Hl & Hn & Hlo & Hhi & HP).
  { intros st n Hin. apply elem_of_seq in Hin.
    destruct (lookup_lt_is_Some_2 categories (n - 1)) as [[name url] Hc];
      [simpl; lia|].
    rewrite Hc.
    destruct (scrape_page_effect w max_pages articles_per_page
                title_elements_v2 n url (lit "https://vnexpress.net")
                (Some name) st)
      as (new & pause & H1 & H2 & H3 & H4 & H5 & H6).
    exists new, pause. repeat split; try done.
    eapply Forall_impl; [exact H6|]. intros a (Hp & Hcat & Hr).
    split; [by exists name, url|]. by split. }
  cbv zeta. rewrite Ha, Hl, category_urls. simpl in *.
  rewrite length_seq in Hn. split; [done|]. split; [done|].
  eapply Forall_impl; [exact HP|].
  intros a (n & Hin & Hc & <- & Hr). apply elem_of_seq in Hin.
  split; [done|]. split; [lia|done].
Qed.

(** X26.  The first content selector that finds an element decides the
    content of an article, even when that element holds no text: the
    selectors after it are not tried. *)
Theorem article_content_first_match (w : web) (url : str)
    (select_one : string → option (list str))
    (before : list string) (selector : string) (after : list string)
    (paragraphs : list str) :
  get_article w url = Article select_one →
  content_selectors = before ++ selector :: after →
  Forall (fun s => select_one s = None) before →
  select_one selector = Some paragraphs →
  extract_article_content w url
  = clean_text (join (lit " ") (filter (fun p => nonempty p = true) paragraphs)).
Proof.
  intros Hw Hsel Hb Hs. unfold extract_article_content. rewrite Hw, Hsel.
  by rewrite (first_content_decides _ _ _ _ paragraphs).
Qed.

Lemma article_content_first_match_witness :
  extract_article_content empty_normal_web (lit "https://vnexpress.net/a.html")
  = clean_text (join (lit " ") (filter (fun p => nonempty p = true) [[]; []])).
Proof.
  apply (article_content_first_match empty_normal_web _ empty_normal_page
           [".fck_detail"%string] ".Normal"%string
           ["article .content"; ".content_detail"]%string).
  - reflexivity.
  - reflexivity.
  - repeat constructor.
  - reflexivity.
Defined.

(** X27.  enhanced_scraper.py requests every page from 1 to [max_pages]
    once and in order, whatever fails on the way, and records at most
    [articles_per_page] articles for each, all numbered with a page in
    that range. *)
Theorem scrape_enhanced_requests_every_page (w : web)
    (max_pages articles_per_page : nat) :
  let st := (scrape_vnexpress_enhanced w max_pages articles_per_page).1 in
  listings (log st) = page_url <$> seq 1 max_pages ∧
  length (all_articles_data st) ≤ max_pages * articles_per_page ∧
  Forall (fun a => 1 ≤ page a ≤ max_pages) (all_articles_data st).
Proof.
  destruct (scrape_enhanced_effect w max_pages articles_per_page)
    as (Hl & Hn & _ & _ & HP).
  cbv zeta. repeat split; [done|done|].
  eapply Forall_impl; [exact HP|]. by intros a (? & _).
Qed.

(** X28.  enhanced_scraper.py sleeps one second for each article it
    records and two seconds after a page at most, never after the last
    one. *)
Theorem scrape_enhanced_pauses (w : web) (max_pages articles_per_page : nat) :
  let st := (scrape_vnexpress_enhanced w max_pages articles_per_page).1 in
  length (all_articles_data st) ≤ slept (log st) ∧
  slept (log st) ≤ length (all_articles_data st) + 2 * (max_pages - 1).
Proof.
  destruct (scrape_enhanced_effect w max_pages articles_per_page)
    as (_ & _ & Hlo & Hhi & _).
  by split.
Qed.

(** X29.  enhanced_scraper_v2.py requests the first [max_pages] entries of
    its table of ten categories, in order, and no more than these ten
    however large [max_pages] is; every record carries the name of the
    category its page number stands for. *)
Theorem scrape_categories_visits_table_prefix (w : web)
    (max_pages articles_per_page : nat) :
  let st := (scrape_vnexpress_categories w max_pages articles_per_page).1 in
  listings (log st) = snd <$> take max_pages categories ∧
  length (listings (log st)) ≤ 10 ∧
  length (all_articles_data st) ≤ min max_pages 10 * articles_per_page ∧
  Forall (fun a => ∃ name url, categories !! (page a - 1) = Some (name, url) ∧
                               category a = Some name)
    (all_articles_data st).
Proof.
  destruct (scrape_categories_effect w max_pages articles_per_page)
    as (Hl & Hn & HP).
  cbv zeta. repeat split; [done| |done|].
  - rewrite Hl, length_fmap, length_take. simpl. lia.
  - eapply Forall_impl; [exact HP|]. by intros a (? & _).
Qed.

(** X30.  Every record of either scraper has a summary of at most 300
    characters and a preview that is the content when that has at most
    200 characters and has 203 characters otherwise; when the request for
    the article behind its link fails, the record is written all the same,
    with empty content. *)
Theorem scraped_record_fields (w : web) (max_pages articles_per_page : nat)
    (a : article_data) :
  a ∈ all_articles_data
        (scrape_vnexpress_enhanced w max_pages articles_per_page).1
  ∨ a ∈ all_articles_data
          (scrape_vnexpress_categories w max_pages articles_per_page).1 →
  length (summary a) ≤ 300 ∧
  length (content_preview a)
  = (if 200 <? content_length a then 203 else content_length a) ∧
  (get_article w (link a) = ArticleError →
   content_length a = 0 ∧ summary a = [] ∧ content_preview a = []).
Proof.
  intros Ha.
  assert (Hr : record_of_article w a).
  { destruct Ha as [Ha|Ha].
    - destruct (scrape_enhanced_effect w max_pages articles_per_page)
        as (_ & _ & _ & _ & HP).
      rewrite Forall_forall in HP. by apply HP in Ha as (_ & _ & Hr).
    - destruct (scrape_categories_effect w max_pages articles_per_page)
        as (_ & _ & HP).
      rewrite Forall_forall in HP. by apply HP in Ha as (_ & _ & Hr). }
  destruct Hr as (Hs & Hp & Hl). rewrite Hs, Hp, Hl.
  split; [apply length_simple_summarize|]. split; [apply length_make_preview|].
  intros He. unfold extract_article_content. by rewrite He.
Qed.

Lemma scraped_record_fields_witness :
  let a := {| page := 1; category := None; title := lit "Storm warning";
              link := lit "https://vnexpress.net/storm.html";
              content_preview := []; summary := []; content_length := 0;
              scraped_at := "2025-01-01 00:00:00"%string |} in
  length (summary a) ≤ 300 ∧
  length (content_preview a)
  = (if 200 <? content_length a then 203 else content_length a) ∧
  (get_article unreachable_articles_web (link a) = ArticleError →
   content_length a = 0 ∧ summary a = [] ∧ content_preview a = []).
Proof.
  intros a. apply (scraped_record_fields unreachable_articles_web 1 5 a).
  left. vm_compute. apply list_elem_of_here.
Defined.

End scraping_properties.
